(** * ftp-deploy: the synchronisation run of [src/main.ts]

    A shallow embedding of [main.ts]: the content hasher [fileHash], the
    inventory filter [includeExcludeFilter], the inventory builder
    [getLocalFiles], the path helper [getFileBreadcrumbs], the four remote
    operations ([uploadFile], [createFolder], [removeFolder], [removeFile])
    and the orchestrator [deploy].

    Asynchronous functions are programs of the monad [Run]: they thread the
    state of the outside world, may settle with a value, reject with a thrown
    value or stay pending, and record every call on a collaborator (the
    basic-ftp client, [fs.writeFileSync], the logger) in a trace.  The
    collaborators themselves (the FTP server behind the client, the directory
    walker, the glob matcher, the hash algorithm, JSON, the diff tool of
    [./HashDiff], the constants of [./types]) are fields of the class
    [Platform].  Calls on [Timings] are not recorded. *)

From Stdlib Require Import ZArith Ascii.
From stdpp Require Import base option list strings gmap sorting.

(** ** Data model ([./types]) *)

(** [type: "file" | "folder"] *)
Inductive RecordType := type_file | type_folder.

#[global] Instance RecordType_eq_dec : EqDecision RecordType.
Proof. solve_decision. Defined.

(** [Record]: one entry of the state document. [size] and [hash] are
    [undefined] for folders. *)
Record FileRecord := {
  type : RecordType;
  name : string;
  size : option Z;
  hash : option string;
}.

#[global] Instance FileRecord_eq_dec : EqDecision FileRecord.
Proof. solve_decision. Defined.

Record IFileList := {
  description : string;
  version : string;
  generatedTime : Z;
  data : list FileRecord;
}.

(** The result of [IDiff.getDiffs]. *)
Record DiffResult := {
  upload : list FileRecord;
  delete : list FileRecord;
  replace : list FileRecord;
  sizeUpload : Z;
  sizeDelete : Z;
  sizeReplace : Z;
}.

Record IFilePath := {
  folders : option (list string);
  file : option string;
}.

Record IFtpDeployArguments := {
  server : string;
  username : string;
  password : string;
  state_name : string;              (* args["state-name"] *)
  dangerous_clean_slate : bool;     (* args["dangerous-clean-slate"] *)
  include : option (list string);   (* null when not configured *)
  exclude : option (list string);
  log_level : string;               (* args["log-level"] *)
}.

(** What the directory walker reports about one path. *)
Module Stats.
Record t := {
  path : string;
  isDirectory : bool;
  isFile : bool;
  isSymbolicLink : bool;
  size : Z;
}.
End Stats.

(** ** Thrown values, promises, events *)

(** The values that are thrown or used to reject a promise. Only an
    [FTPError] carries a numeric [code]. *)
Inductive Thrown :=
| FTPError (code : Z) (message : string)
| JsError (message : string)          (* new Error(..), SyntaxError, I/O errors *)
| Reason (text : string)              (* reject("calc fail") *)
| CantOpen (reason : Thrown).         (* reject(`Can't open due to: "${reason}"`) *)

(** [e.code] *)
Definition code (e : Thrown) : option Z :=
  match e with
  | FTPError c _ => Some c
  | _ => None
  end.

Inductive Promise (A : Type) :=
| Fulfilled (a : A)
| Rejected (e : Thrown)
| Pending.
Arguments Fulfilled {A} a.
Arguments Rejected {A} e.
Arguments Pending {A}.

(** What the variable [totalBytesUploaded] holds: the [0] it starts with, or,
    from line 346 on, [diffs.sizeUpload + diffs.sizeReplace]. The sum is the
    one JavaScript makes of the two numbers; it is kept as the pair of its
    operands and never evaluated here. *)
Inductive Bytes :=
| no_bytes
| bytes_sum (sizeUpload sizeReplace : Z).

#[global] Instance Bytes_eq_dec : EqDecision Bytes.
Proof. solve_decision. Defined.

(** Calls on the basic-ftp client, on [fs] and on the closing speed report
    [prettyBytes(totalBytesUploaded / (timings.getTime("upload") / 1000))]. *)
Inductive Call :=
| access (host user pass : string)
| clearWorkingDir
| downloadTo (remotePath : string)
| ensureDir (remoteDirPath : string)
| uploadFrom (source remotePath : string)
| cdup
| remove (remotePath : string)
| removeDir (remoteDirPath : string)
| close
| writeFileSync (localPath content : string)
| uploadSpeed (totalBytesUploaded : Bytes).

#[global] Instance Call_eq_dec : EqDecision Call.
Proof. solve_decision. Defined.

Inductive Reply :=
| Ok (body : string)       (* the bytes received, for [downloadTo] *)
| Fail (e : Thrown).

Inductive Level := all | debug | info | warn.

(** The lines handed to the logger, one constructor per call site. *)
Inductive Message :=
| MsgRule                              (* "------...------" *)
| MsgWelcome | MsgSupport | MsgStar
| MsgUploading (filePath : string)     (* uploading "<filePath>" *)
| MsgNoNeedToChangeDir
| MsgChangingDir (dir : string)
| MsgDirChanged
| MsgUploadStarted
| MsgFileUploaded
| MsgCompleted
| MsgCreatingFolder (folderPath : string)
| MsgCreatingFolderDir (dir : string)
| MsgRemovingFolder (folderPath : string)
| MsgRemovingFolderDir (dir : string)
| MsgFolderDoesNotExist                (* could not remove folder. It doesn't exist! *)
| MsgRemoving (filePath : string)
| MsgRemovingFile (file : string)
| MsgFileRemoved
| MsgFileDoesNotExist                  (* could not remove file. It doesn't exist! *)
| MsgCleanSlate
| MsgClearComplete
| MsgLastPublished (generatedTime : Z)
| MsgNoFileExists (stateName : string)
| MsgFirstPublish
| MsgNotFirstPublish
| MsgMakingChanges (totalCount : nat)
| MsgSizes (sizeUpload sizeDelete sizeReplace : Z)
| MsgSyncComplete (stateName : string)
| MsgError553                          (* Error 553, you don't have access to upload the file *)
| MsgError (e : Thrown)                (* "Error:", typeof e, JSON.stringify(e), e *)
| MsgCouldntFindFile
| MsgThrown (e : Thrown)               (* logger.warn(error) *)
| MsgTimeHashing | MsgTimeConnecting | MsgTimeDeploying (speed : string)
| MsgTotalTime.

Inductive Event :=
| Called (c : Call)
| Logged (l : Level) (m : Message)
| ConsoleWarn (text : string)
| GetDiffs (localFiles serverFiles : IFileList).   (* diffTool.getDiffs(..) *)

(** What [fs.createReadStream] does with a file: it throws at once, or it
    returns a stream that emits events later on. *)
Inductive StreamEvent :=
| on_data (chunk : string)
| on_end
| on_error (e : Thrown).

Inductive ReadStream :=
| CreateThrows (e : Thrown)
| Emits (events : list StreamEvent).

(** ** The collaborators *)

Class Platform := {
  (** the state of the remote server, the session and the clock *)
  World : Type;
  perform : World → Call → World * Reply;
  (** [new Date().getTime()] *)
  getTime : World → Z;
  (** [readdir.async("./", { deep, stats, sep, filter })] *)
  readdir_async : (Stats.t → bool) → Promise (list Stats.t);
  createReadStream : string → ReadStream;
  (** [crypto.createHash(algorithm)]: what it throws when the platform does
      not provide the algorithm, [None] when it returns a hash object *)
  createHash : string → option Thrown;
  (** [crypto.createHash(algorithm).update(..).digest("hex")] of the bytes fed *)
  digest_hex : string → string → string;
  (** [multiMatch(path, patterns, { matchBase, dot })]: the paths that match *)
  multiMatch : string → list string → list string;
  JSON_stringify : IFileList → string;
  (** [JSON.parse], [None] when it throws; the value is used at type
      [IFileList] as the source does *)
  JSON_parse : string → option IFileList;
  (** [new HashDiff().getDiffs(localFiles, serverFiles, logger)]: the edit
      script, or the value it throws *)
  getDiffs : IFileList → IFileList → DiffResult + Thrown;
  (** constants of [./types] *)
  syncFileDescription : string;
  FileNotFoundOrNoAccess : Z;
}.

(** ** Paths *)

(** [fullPath.split("/")]: never empty, [""] yields [[""]]. *)
Fixpoint split_slash (s : string) : list string :=
  match s with
  | EmptyString => [EmptyString]
  | String c rest =>
      if Ascii.eqb c "/"%char then EmptyString :: split_slash rest
      else match split_slash rest with
           | piece :: pieces => String c piece :: pieces
           | [] => [String c EmptyString]
           end
  end.

(** [folders.join("/")] *)
Definition join (pieces : list string) : string := String.concat "/" pieces.

(** Converts a file path (ex: "folder/otherfolder/file.txt") to an array of
    folder and a file path. *)
Definition getFileBreadcrumbs (fullPath : string) : IFilePath :=
  let pathSplit := split_slash fullPath in
  let file := default EmptyString (last pathSplit) in      (* pathSplit.pop() ?? "" *)
  let pathSplit := removelast pathSplit in
  let folders := filter (λ folderName, folderName ≠ EmptyString) pathSplit in
  {| folders := if decide (length folders = 0) then None else Some folders;
     file := if decide (file = EmptyString) then None else Some file |}.

Section main.
Context `{Platform}.

(** ** The monad of asynchronous programs *)

Definition Run (A : Type) : Type := World → Promise A * World * list Event.

Definition result {A} (r : Promise A * World * list Event) : Promise A := r.1.1.
Definition world {A} (r : Promise A * World * list Event) : World := r.1.2.
Definition trace {A} (r : Promise A * World * list Event) : list Event := r.2.

Definition ret {A} (a : A) : Run A := λ w, (Fulfilled a, w, []).
Definition throw {A} (e : Thrown) : Run A := λ w, (Rejected e, w, []).

Definition bind {A B} (m : Run A) (k : A → Run B) : Run B := λ w,
  match m w with
  | (Fulfilled a, w1, t1) => let '(r, w2, t2) := k a w1 in (r, w2, t1 ++ t2)
  | (Rejected e, w1, t1) => (Rejected e, w1, t1)
  | (Pending, w1, t1) => (Pending, w1, t1)
  end.

(** [try { m } catch (e) { handler e }] *)
Definition try_catch {A} (m : Run A) (handler : Thrown → Run A) : Run A := λ w,
  match m w with
  | (Rejected e, w1, t1) => let '(r, w2, t2) := handler e w1 in (r, w2, t1 ++ t2)
  | settled => settled
  end.

#[global] Instance Run_ret : MRet Run := @ret.
#[global] Instance Run_bind : MBind Run := λ A B k m, bind m k.

(** [await p] for a promise that does not touch the world. *)
Definition await {A} (p : Promise A) : Run A := λ w, (p, w, []).

(** A call whose reply carries data. *)
Definition request (c : Call) : Run string := λ w,
  match perform w c with
  | (w', Ok body) => (Fulfilled body, w', [Called c])
  | (w', Fail e) => (Rejected e, w', [Called c])
  end.

Definition call (c : Call) : Run unit := λ w,
  match perform w c with
  | (w', Ok _) => (Fulfilled tt, w', [Called c])
  | (w', Fail e) => (Rejected e, w', [Called c])
  end.

Definition log (l : Level) (m : Message) : Run unit := λ w,
  (Fulfilled tt, w, [Logged l m]).

Definition console_warn (text : string) : Run unit := λ w,
  (Fulfilled tt, w, [ConsoleWarn text]).

(** The call of the diff tool, as an event of the trace. *)
Definition consult (localFiles serverFiles : IFileList) : Run unit := λ w,
  (Fulfilled tt, w, [GetDiffs localFiles serverFiles]).

Definition now : Run Z := λ w, (Fulfilled (getTime w), w, []).

(** [for (const x of items) { await body(x) }] *)
Fixpoint for_of {A} (items : list A) (body : A → Run unit) : Run unit :=
  match items with
  | [] => ret tt
  | x :: rest => body x;; for_of rest body
  end.

(** ** Content hasher *)

(** The listeners [fileHash] registers on the stream: "data" feeds the
    hash, "end" resolves with the digest. No listener is registered for
    "error". [fed] is what [shasum.update] has received so far. *)
Fixpoint listen (algorithm fed : string) (events : list StreamEvent) : Promise string :=
  match events with
  | [] => Pending
  | on_data chunk :: rest => listen algorithm (fed +:+ chunk) rest
  | on_end :: _ => Fulfilled (digest_hex algorithm fed)
  | on_error _ :: _ => Pending
  end.

(** [crypto.createHash] is called in the executor of the promise, before the
    [try]: what it throws rejects the promise as it is. *)
Definition fileHash (filename algorithm : string) : Promise string :=
  match createHash algorithm with
  | Some thrown => Rejected thrown
  | None =>
      match createReadStream filename with
      | CreateThrows _ => Rejected (Reason "calc fail")
      | Emits events => listen algorithm EmptyString events
      end
  end.

(** ** Inventory filter and builder *)

(** Excludes takes precedence over includes *)
Definition includeExcludeFilter (stat : Stats.t) (args : IFtpDeployArguments) : bool :=
  let excluded :=
    match exclude args with
    | Some patterns => bool_decide (0 < length (multiMatch (Stats.path stat) patterns))
    | None => false
    end in
  if excluded then false
  else
    let included :=
      match include args with
      | Some patterns => bool_decide (0 < length (multiMatch (Stats.path stat) patterns))
      | None => false
      end in
    if included then true else true.

Fixpoint collect (files : list Stats.t) (records : list FileRecord) : Run (list FileRecord) :=
  match files with
  | [] => ret records
  | stat :: rest =>
      if Stats.isDirectory stat then
        collect rest (records ++ [{| type := type_folder; name := Stats.path stat;
                                     size := None; hash := None |}])
      else if Stats.isFile stat then
        h ← await (fileHash (Stats.path stat) "sha256");
        collect rest (records ++ [{| type := type_file; name := Stats.path stat;
                                     size := Some (Stats.size stat); hash := Some h |}])
      else if Stats.isSymbolicLink stat then
        console_warn "Currently unable to handle symbolic links";;
        collect rest records
      else collect rest records
  end.

Definition getLocalFiles (args : IFtpDeployArguments) : Run IFileList :=
  files ← await (readdir_async (λ stat, includeExcludeFilter stat args));
  records ← collect files [];
  generated ← now;
  ret {| description := syncFileDescription; version := "1.0.0";
         generatedTime := generated; data := records |}.

(** ** Remote operations *)

Definition downloadFileList (path : string) : Run IFileList :=
  file ← try_catch (request (downloadTo path)) (λ reason, throw (CantOpen reason));
  match JSON_parse file with
  | Some parsed => ret parsed
  | None => throw (JsError "SyntaxError")
  end.

(** Navigates up {dirCount} number of directories from the current working dir *)
Definition upDir (dirCount : option nat) : Run unit :=
  match dirCount with
  | None => ret tt
  | Some n => for_of (seq 0 n) (λ _, call cdup)
  end.

Definition uploadFile (filePath : string) : Run unit :=
  log all (MsgUploading filePath);;
  let path := getFileBreadcrumbs filePath in
  match folders path with
  | None => log debug MsgNoNeedToChangeDir
  | Some fs =>
      log debug (MsgChangingDir (join fs));;
      call (ensureDir (join fs));;
      log debug MsgDirChanged
  end;;
  match file path with
  | Some f =>
      log debug MsgUploadStarted;;
      call (uploadFrom filePath f);;
      log debug MsgFileUploaded
  | None => ret tt
  end;;
  upDir (length <$> folders path);;
  log debug MsgCompleted.

Definition createFolder (folderPath : string) : Run unit :=
  log all (MsgCreatingFolder (folderPath +:+ "/"));;
  let path := getFileBreadcrumbs (folderPath +:+ "/") in
  match folders path with
  | None => log debug MsgNoNeedToChangeDir
  | Some fs =>
      log debug (MsgCreatingFolderDir (join fs));;
      call (ensureDir (join fs))
  end;;
  upDir (length <$> folders path);;
  log debug MsgCompleted.

(** The [try]/[catch] of [removeFolder] around [client.removeDir]. *)
Definition removeFolder_try (fs : list string) : Run unit :=
  try_catch
    (log debug (MsgRemovingFolderDir (join fs +:+ "/"));;
     call (removeDir (join fs +:+ "/")))
    (λ error,
       if decide (code error = Some FileNotFoundOrNoAccess)
       then log debug MsgFolderDoesNotExist
       else throw error).

Definition removeFolder (folderPath : string) : Run unit :=
  log all (MsgRemovingFolder (folderPath +:+ "/"));;
  let path := getFileBreadcrumbs (folderPath +:+ "/") in
  match folders path with
  | None => log debug MsgNoNeedToChangeDir
  | Some fs => removeFolder_try fs
  end;;
  upDir (length <$> folders path);;
  log info MsgCompleted.

(** The [try]/[catch] of [removeFile] around [client.remove]. *)
Definition removeFile_try (f : string) : Run unit :=
  try_catch
    (log debug (MsgRemovingFile f);;
     call (remove f);;
     log debug MsgFileRemoved)
    (λ error,
       if decide (code error = Some FileNotFoundOrNoAccess)
       then log info MsgFileDoesNotExist
       else throw error).

Definition removeFile (filePath : string) : Run unit :=
  log all (MsgRemoving filePath);;
  let path := getFileBreadcrumbs filePath in
  match folders path with
  | None => log debug MsgNoNeedToChangeDir
  | Some fs =>
      log debug (MsgChangingDir (join fs));;
      call (ensureDir (join fs));;
      log debug MsgDirChanged
  end;;
  match file path with
  | Some f => removeFile_try f
  | None => ret tt
  end;;
  upDir (length <$> folders path);;
  log info MsgCompleted.

(** ** The orchestrator [deploy], block by block *)

(** Lines 314-341: the previous inventory, as read back from the server
    or, from the [catch], the empty one. *)
Definition fetchServerFiles (args : IFtpDeployArguments) : Run IFileList :=
  try_catch
    ((if dangerous_clean_slate args then
        log all MsgRule;;
        log all MsgCleanSlate;;
        call clearWorkingDir;;
        log all MsgClearComplete;;
        throw (JsError "nope")
      else ret tt);;
     serverFiles ← downloadFileList (state_name args);
     log all MsgRule;;
     log all (MsgLastPublished (generatedTime serverFiles));;
     ret serverFiles)
    (λ e,
       log all MsgRule;;
       log all (MsgNoFileExists (state_name args));;
       log all MsgFirstPublish;;
       log all MsgNotFirstPublish;;
       (* set the server state to nothing, because we don't know what the server state is *)
       generated ← now;
       ret {| description := syncFileDescription; version := "1.0.0";
              generatedTime := generated; data := [] |}).

(** Lines 357-360: create new folders *)
Definition createNewFolders (diffs : DiffResult) : Run unit :=
  for_of (filter (λ item, type item = type_folder) (upload diffs))
         (λ file, createFolder (name file)).

(** Lines 362-365: upload new files *)
Definition uploadNewFiles (args : IFtpDeployArguments) (diffs : DiffResult) : Run unit :=
  for_of (filter (λ item, name item ≠ state_name args)
            (filter (λ item, type item = type_file) (upload diffs)))
         (λ file, uploadFile (name file)).

(** Lines 367-371: replace new files *)
Definition replaceFiles (args : IFtpDeployArguments) (diffs : DiffResult) : Run unit :=
  for_of (filter (λ item, name item ≠ state_name args)
            (filter (λ item, type item = type_file) (replace diffs)))
         (λ file, uploadFile (name file)).

(** Lines 373-376: delete old files *)
Definition deleteOldFiles (diffs : DiffResult) : Run unit :=
  for_of (filter (λ item, type item = type_file) (delete diffs))
         (λ file, removeFile (name file)).

(** Lines 378-381: delete old folders *)
Definition deleteOldFolders (diffs : DiffResult) : Run unit :=
  for_of (filter (λ item, type item = type_folder) (delete diffs))
         (λ file, removeFolder (name file)).

(** Lines 357-381: the five loops. *)
Definition phases1to5 (args : IFtpDeployArguments) (diffs : DiffResult) : Run unit :=
  createNewFolders diffs;;
  uploadNewFiles args diffs;;
  replaceFiles args diffs;;
  deleteOldFiles diffs;;
  deleteOldFolders diffs.

(** Lines 383-385: save the current server state. *)
Definition saveState (args : IFtpDeployArguments) : Run unit :=
  log all MsgRule;;
  log all (MsgSyncComplete (state_name args));;
  call (uploadFrom (state_name args) (state_name args)).

(** Lines 357-385. *)
Definition syncChanges (args : IFtpDeployArguments) (diffs : DiffResult) : Run unit :=
  phases1to5 args diffs;;
  saveState args.

(** Lines 349-394: the [try]/[catch] around the phases. The value tells
    whether the [return] of the handler was taken. *)
Definition uploadBlock (args : IFtpDeployArguments) (diffs : DiffResult) : Run bool :=
  try_catch
    (let totalCount :=
       (length (delete diffs) + length (upload diffs) + length (replace diffs))%nat in
     log all MsgRule;;
     log all (MsgMakingChanges totalCount);;
     log all (MsgSizes (sizeUpload diffs) (sizeDelete diffs) (sizeReplace diffs));;
     log all MsgRule;;
     syncChanges args diffs;;
     ret false)
    (λ e,
       if decide (code e = Some 553%Z) then
         log warn MsgError553;;
         ret true
       else
         log warn (MsgError e);;
         ret false).

(** Lines 398-404: the [catch] of the session, run while the variable
    [totalBytesUploaded] holds the given value. *)
Definition sessionCatch (totalBytesUploaded : Bytes) (error : Thrown) : Run (bool * Bytes) :=
  (if decide (code error = Some FileNotFoundOrNoAccess)
   then log warn MsgCouldntFindFile
   else ret tt);;
  log warn (MsgThrown error);;
  ret (false, totalBytesUploaded).

(** Lines 311-404. The value is the pair of the [return] flag and of the
    variable [totalBytesUploaded]: one [catch] guards the whole block, and
    the variable is [0] until line 346 assigns it. *)
Definition session (args : IFtpDeployArguments) (localFiles : IFileList) :
    Run (bool * Bytes) :=
  try_catch
    (serverFiles ← fetchServerFiles args;
     consult localFiles serverFiles;;
     match getDiffs localFiles serverFiles with
     | inr thrown => throw thrown
     | inl diffs =>
         let totalBytesUploaded := bytes_sum (sizeUpload diffs) (sizeReplace diffs) in
         try_catch
           (returned ← uploadBlock args diffs;
            ret (returned, totalBytesUploaded))
           (sessionCatch totalBytesUploaded)
     end)
    (sessionCatch no_bytes).

(** Lines 301-409: connect, run the session; the outermost [catch]. *)
Definition connected (args : IFtpDeployArguments) (localFiles : IFileList) :
    Run (bool * Bytes) :=
  try_catch
    (call (access (server args) (username args) (password args));;
     session args localFiles)
    (λ err,
       log warn (MsgThrown err);;
       ret (false, no_bytes)).

Definition deploy (args : IFtpDeployArguments) : Run unit :=
  log all MsgRule;;
  log all MsgWelcome;;
  log all MsgRule;;
  log all MsgSupport;;
  log all MsgStar;;
  localFiles ← getLocalFiles args;
  call (writeFileSync ("./" +:+ state_name args) (JSON_stringify localFiles));;
  '(returned, totalBytesUploaded) ← connected args localFiles;
  if (returned : bool) then ret tt           (* the [return] of line 390 *)
  else
    call close;;
    speed ← request (uploadSpeed totalBytesUploaded);
    log all MsgRule;;
    log all MsgTimeHashing;;
    log all MsgTimeConnecting;;
    log all (MsgTimeDeploying speed);;
    log all MsgRule;;
    log all MsgTotalTime;;
    log all MsgRule.

End main.

(** ** A scripted platform, to run the model on concrete inputs

    The world is the list of replies still to come, one per call, and every
    call after the script has run out succeeds; the local tree is a fixed
    list of paths and the file contents a fixed table. *)
Module Demo.

Definition tree : list Stats.t :=
  [ {| Stats.path := "docs"; Stats.isDirectory := true; Stats.isFile := false;
       Stats.isSymbolicLink := false; Stats.size := 0 |};
    {| Stats.path := "a.txt"; Stats.isDirectory := false; Stats.isFile := true;
       Stats.isSymbolicLink := false; Stats.size := 10 |} ].

(** A stand-in for the diff tool: everything local is new. *)
Definition uploadAll (localFiles serverFiles : IFileList) : DiffResult + Thrown :=
  inl {| upload := data localFiles; delete := []; replace := [];
         sizeUpload := 0; sizeDelete := 0; sizeReplace := 0 |}.

#[export] Instance platform : Platform := {|
  World := list Reply;
  perform := λ (w : list Reply) (c : Call),
    match w with [] => ([], Ok "") | r :: w' => (w', r) end;
  getTime := λ _, 0%Z;
  readdir_async keep := Fulfilled (List.filter keep tree);
  createReadStream filename :=
    if String.eqb filename "a.txt" then Emits [on_data "0123"; on_data "456789"; on_end]
    else Emits [on_error (JsError "ENOENT")];
  createHash algorithm :=
    if bool_decide (algorithm ∈ ["md5"; "sha1"; "sha256"; "sha512"]) then None
    else Some (JsError "Digest method not supported");
  digest_hex algorithm fed := fed;
  multiMatch path patterns := if bool_decide (path ∈ patterns) then [path] else [];
  JSON_stringify fl := "{}";
  JSON_parse text := None;
  getDiffs := uploadAll;
  syncFileDescription := "DO NOT DELETE THIS FILE";
  FileNotFoundOrNoAccess := 550%Z;
|}.

Definition args : IFtpDeployArguments :=
  {| server := "ftp.example.com"; username := "user"; password := "secret";
     state_name := ".ftp-deploy-sync-state.json"; dangerous_clean_slate := false;
     include := None; exclude := None; log_level := "info" |}.

Definition fileRecord (path : string) : FileRecord :=
  {| type := type_file; name := path; size := Some 10%Z; hash := Some "h1" |}.

Definition folderRecord (path : string) : FileRecord :=
  {| type := type_folder; name := path; size := None; hash := None |}.

(** The state document left in the tree by an earlier run is new to the
    server. *)
Definition stateIsNew : DiffResult :=
  {| upload := [fileRecord ".ftp-deploy-sync-state.json"; fileRecord "a.txt"];
     delete := []; replace := [];
     sizeUpload := 20; sizeDelete := 0; sizeReplace := 0 |}.

(** The state document is listed on the server and is not in the tree. *)
Definition stateIsGone : DiffResult :=
  {| upload := []; delete := [fileRecord ".ftp-deploy-sync-state.json"]; replace := [];
     sizeUpload := 0; sizeDelete := 10; sizeReplace := 0 |}.

(** The replies of a run in which the server refuses the login. *)
Definition refusedLogin : list Reply :=
  [Ok "";                                        (* fs.writeFileSync *)
   Fail (FTPError 530 "Login incorrect")].       (* client.access *)

(** The replies of a first run in which the server refuses an upload. *)
Definition refusedUpload : list Reply :=
  [Ok "";                                        (* fs.writeFileSync *)
   Ok "";                                        (* client.access *)
   Fail (FTPError 550 "No such file");           (* client.downloadTo *)
   Ok ""; Ok "";                                 (* createFolder("docs") *)
   Fail (FTPError 553 "Requested action not taken")]. (* client.uploadFrom("a.txt", ..) *)

Definition someChanges : DiffResult :=
  {| upload := [folderRecord "docs"; fileRecord "docs/b.txt"];
     delete := [fileRecord "old/c.txt"; folderRecord "old"];
     replace := [fileRecord "a.txt"];
     sizeUpload := 10; sizeDelete := 10; sizeReplace := 10 |}.

(** The platform with another tree or another diff tool. *)
Definition scripted (walk : list Stats.t)
    (diffTool : IFileList → IFileList → DiffResult + Thrown) : Platform := {|
  World := list Reply;
  perform := λ (w : list Reply) (c : Call),
    match w with [] => ([], Ok "") | r :: w' => (w', r) end;
  getTime := λ _, 0%Z;
  readdir_async keep := Fulfilled (List.filter keep walk);
  createReadStream filename :=
    if String.eqb filename "a.txt" then Emits [on_data "0123"; on_data "456789"; on_end]
    else Emits [on_error (JsError "ENOENT")];
  createHash algorithm :=
    if bool_decide (algorithm ∈ ["md5"; "sha1"; "sha256"; "sha512"]) then None
    else Some (JsError "Digest method not supported");
  digest_hex algorithm fed := fed;
  multiMatch path patterns := if bool_decide (path ∈ patterns) then [path] else [];
  JSON_stringify fl := "{}";
  JSON_parse text := None;
  getDiffs := diffTool;
  syncFileDescription := "DO NOT DELETE THIS FILE";
  FileNotFoundOrNoAccess := 550%Z;
|}.

(** A tree with a file that cannot be read. *)
Definition lostTree : list Stats.t :=
  tree ++ [ {| Stats.path := "missing.txt"; Stats.isDirectory := false;
               Stats.isFile := true; Stats.isSymbolicLink := false;
               Stats.size := 3 |} ].

Definition lost : Platform := scripted lostTree uploadAll.

(** A diff tool that throws. *)
Definition failingDiff : Platform :=
  scripted tree (λ _ _, inr (JsError "TypeError")).

(** The inventory of [tree]. *)
Definition inventory : IFileList :=
  {| description := "DO NOT DELETE THIS FILE"; version := "1.0.0"; generatedTime := 0;
     data := [folderRecord "docs";
              {| type := type_file; name := "a.txt"; size := Some 10%Z;
                 hash := Some "0123456789" |}] |}.

(** The inventory of a first publish. *)
Definition noInventory : IFileList :=
  {| description := "DO NOT DELETE THIS FILE"; version := "1.0.0"; generatedTime := 0;
     data := [] |}.

Definition cleanSlate : IFtpDeployArguments :=
  {| server := "ftp.example.com"; username := "user"; password := "secret";
     state_name := ".ftp-deploy-sync-state.json"; dangerous_clean_slate := true;
     include := None; exclude := None; log_level := "info" |}.

Definition noChanges : DiffResult :=
  {| upload := []; delete := []; replace := [];
     sizeUpload := 0; sizeDelete := 0; sizeReplace := 0 |}.

(** What [uploadAll] makes of [inventory]. *)
Definition firstUpload : DiffResult :=
  {| upload := data inventory; delete := []; replace := [];
     sizeUpload := 0; sizeDelete := 0; sizeReplace := 0 |}.

End Demo.

(** ** The calls each operation is expected to issue *)

(** The client calls, [fs] writes and speed reports of a trace, in order. *)
Fixpoint calls_of (t : list Event) : list Call :=
  match t with
  | [] => []
  | Called c :: rest => c :: calls_of rest
  | _ :: rest => calls_of rest
  end.

Definition upDir_calls (dirCount : option nat) : list Call :=
  match dirCount with
  | None => []
  | Some n => replicate n cdup
  end.

Definition cd_calls (path : IFilePath) : list Call :=
  match folders path with
  | None => []
  | Some fs => [ensureDir (join fs)]
  end.

Definition uploadFile_calls (filePath : string) : list Call :=
  let path := getFileBreadcrumbs filePath in
  cd_calls path
  ++ match file path with Some f => [uploadFrom filePath f] | None => [] end
  ++ upDir_calls (length <$> folders path).

Definition createFolder_calls (folderPath : string) : list Call :=
  let path := getFileBreadcrumbs (folderPath +:+ "/") in
  cd_calls path ++ upDir_calls (length <$> folders path).

Definition removeFile_calls (filePath : string) : list Call :=
  let path := getFileBreadcrumbs filePath in
  cd_calls path
  ++ match file path with Some f => [remove f] | None => [] end
  ++ upDir_calls (length <$> folders path).

Definition removeFolder_calls (folderPath : string) : list Call :=
  let path := getFileBreadcrumbs (folderPath +:+ "/") in
  match folders path with
  | None => []
  | Some fs => [removeDir (join fs +:+ "/")]
  end
  ++ upDir_calls (length <$> folders path).

(** The entries of one kind, in the order of the list. *)
Definition of_type (t : RecordType) (items : list FileRecord) : list FileRecord :=
  filter (λ item, type item = t) items.

(** The entries that are not the state document. *)
Definition not_state (args : IFtpDeployArguments) (items : list FileRecord) : list FileRecord :=
  filter (λ item, name item ≠ state_name args) items.

(** The calls of an operation over a list of entries, entry after entry. *)
Definition each (calls : string → list Call) (items : list FileRecord) : list Call :=
  concat ((λ item, calls (name item)) <$> items).

Definition phases1to5_calls (args : IFtpDeployArguments) (diffs : DiffResult) : list Call :=
  each createFolder_calls (of_type type_folder (upload diffs))
  ++ each uploadFile_calls (not_state args (of_type type_file (upload diffs)))
  ++ each uploadFile_calls (not_state args (of_type type_file (replace diffs)))
  ++ each removeFile_calls (of_type type_file (delete diffs))
  ++ each removeFolder_calls (of_type type_folder (delete diffs)).

(** The phase order as the specification words it: every file entry of the
    upload and replace lists is uploaded in phases 2 and 3. *)
Definition specified_calls (args : IFtpDeployArguments) (diffs : DiffResult) : list Call :=
  each createFolder_calls (of_type type_folder (upload diffs))
  ++ each uploadFile_calls (of_type type_file (upload diffs))
  ++ each uploadFile_calls (of_type type_file (replace diffs))
  ++ each removeFile_calls (of_type type_file (delete diffs))
  ++ each removeFolder_calls (of_type type_folder (delete diffs))
  ++ [uploadFrom (state_name args) (state_name args)].

Section replay.
Context `{Platform}.

(** The world after a list of calls. *)
Fixpoint exec (w : World) (calls : list Call) : World :=
  match calls with
  | [] => w
  | c :: rest => exec (perform w c).1 rest
  end.

(** [m] issues the calls of [plan], in order, up to the first one that
    fails: its calls are a prefix of the plan, the whole plan when it is
    fulfilled; and it leaves the world those calls produce. *)
Record issues {A} (m : Run A) (plan : list Call) : Prop := {
  issues_prefix w : calls_of (trace (m w)) `prefix_of` plan;
  issues_all w a : result (m w) = Fulfilled a → calls_of (trace (m w)) = plan;
  issues_world w : world (m w) = exec w (calls_of (trace (m w)));
}.

(** Every event [m] records satisfies [P], whatever the world replies. *)
Definition emits_only {A} (m : Run A) (P : Event → Prop) : Prop :=
  ∀ w ev, ev ∈ trace (m w) → P ev.

(** [m] never stays pending. *)
Definition settles {A} (m : Run A) : Prop :=
  ∀ w, result (m w) ≠ Pending.

(** [m] is fulfilled, whatever the world replies. *)
Definition never_rejects {A} (m : Run A) : Prop :=
  ∀ w, ∃ a, result (m w) = Fulfilled a.

End replay.

(** ** The Diff Engine *)

Module HashDiffSpec.

Inductive Kind := kind_file | kind_folder.

#[global] Instance Kind_eq_dec : EqDecision Kind.
Proof. solve_decision. Defined.

(** Modelled from the spec: the Entry, Inventory and EditScript of section 3
    (the file [./HashDiff] of the repository is not among the sources). *)
Record Entry := {
  kind : Kind;
  path : string;
  size : option Z;
  fingerprint : option string;
}.

Record Inventory := {
  formatVersion : string;
  generatedAt : Z;
  entries : list Entry;
}.

Record EditScript := {
  toUpload : list Entry;
  toReplace : list Entry;
  toDelete : list Entry;
  bytesUpload : Z;
  bytesReplace : Z;
  bytesDelete : Z;
}.

(** Modelled from the spec: "build a path-keyed map for each inventory". *)
Definition index (es : list Entry) : gmap string Entry :=
  list_to_map ((λ e, (path e, e)) <$> es).

Inductive Verdict :=
| NoOp
| Upload (cur : Entry)
| Delete (prev : Entry)
| Replace (cur : Entry)
| ChangeKind (prev cur : Entry).

(** Modelled from the spec: the classification of one path of section 4.4,
    from what the previous and the current inventory hold for it. *)
Definition classify (prev cur : option Entry) : Verdict :=
  match prev, cur with
  | None, None => NoOp
  | None, Some c => Upload c
  | Some p, None => Delete p
  | Some p, Some c =>
      match kind p, kind c with
      | kind_file, kind_file =>
          if decide (fingerprint p = fingerprint c ∧ size p = size c) then NoOp
          else Replace c
      | kind_folder, kind_folder => NoOp
      | _, _ => ChangeKind p c
      end
  end.

Definition uploads (v : Verdict) : list Entry :=
  match v with Upload c | ChangeKind _ c => [c] | _ => [] end.
Definition replaces (v : Verdict) : list Entry :=
  match v with Replace c => [c] | _ => [] end.
Definition deletes (v : Verdict) : list Entry :=
  match v with Delete p | ChangeKind p _ => [p] | _ => [] end.

(** Modelled from the spec: "sums of size over the corresponding file
    entries (folders contribute 0)". *)
Definition bytes (es : list Entry) : Z :=
  foldr (λ e total, match kind e with
                    | kind_file => (default 0 (size e) + total)%Z
                    | kind_folder => total
                    end) 0%Z es.

(** Modelled from the spec: every path of the union of both key sets, in
    ascending order. *)
Definition paths (prev cur : gmap string Entry) : list string :=
  merge_sort String.le (elements (dom prev ∪ dom cur)).

(** Modelled from the spec: [diff(previous, current)] of section 4.4. *)
Definition diff (previous current : Inventory) : EditScript :=
  let prev := index (entries previous) in
  let cur := index (entries current) in
  let verdicts := (λ p, classify (prev !! p) (cur !! p)) <$> paths prev cur in
  let toUpload := concat (uploads <$> verdicts) in
  let toReplace := concat (replaces <$> verdicts) in
  let toDelete := concat (deletes <$> verdicts) in
  {| toUpload := toUpload; toReplace := toReplace; toDelete := toDelete;
     bytesUpload := bytes toUpload; bytesReplace := bytes toReplace;
     bytesDelete := bytes toDelete |}.

End HashDiffSpec.

(** ** The statements of the specification that the code does not meet *)

Section specified.
Context `{Platform}.

(** Phase order: a run that completes has issued [specified_calls]. *)
Definition applies_specified_order (args : IFtpDeployArguments) (diffs : DiffResult)
    (w : World) : Prop :=
  result (syncChanges args diffs w) = Fulfilled tt →
  calls_of (trace (syncChanges args diffs w)) = specified_calls args diffs.

(** The operations open with a line that names the entry they act on. *)
Definition uploads_entry (entry : string) (ev : Event) : Prop :=
  ev = Logged all (MsgUploading entry).

Definition deletes_entry (entry : string) (ev : Event) : Prop :=
  ev = Logged all (MsgRemoving entry)
  ∨ ev = Logged all (MsgRemovingFolder (entry +:+ "/")).

(** Phases 1 to 5 neither upload nor delete the entry of the state
    document. *)
Definition never_handles_state (args : IFtpDeployArguments) (diffs : DiffResult)
    (w : World) : Prop :=
  ∀ ev, ev ∈ trace (phases1to5 args diffs w) →
        ¬ uploads_entry (state_name args) ev ∧ ¬ deletes_entry (state_name args) ev.

(** An event that is not an upload of the state document. *)
Definition spares (stateName : string) (ev : Event) : Prop :=
  ¬ uploads_entry stateName ev ∧ ∀ remotePath, ev ≠ Called (uploadFrom stateName remotePath).

(** The calls of a list that fail when issued in order from [w], each
    with the value it fails with. *)
Fixpoint failures (w : World) (calls : list Call) : list (Call * Thrown) :=
  match calls with
  | [] => []
  | c :: rest =>
      match perform w c with
      | (w', Ok _) => failures w' rest
      | (w', Fail e) => (c, e) :: failures w' rest
      end
  end.

(** A connection failure or a failed upload reaches the result of
    [deploy]: the promise is rejected with the value the call failed
    with. *)
Definition propagates (args : IFtpDeployArguments) (w : World) : Prop :=
  ∀ c e,
    (c, e) ∈ failures w (calls_of (trace (deploy args w))) →
    (∃ host user pass, c = access host user pass)
    ∨ (∃ source remotePath, c = uploadFrom source remotePath) →
    result (deploy args w) = Rejected e.

(** The lines the [catch] of lines 328-341 logs. *)
Definition firstPublish (args : IFtpDeployArguments) : list Event :=
  [Logged all MsgRule; Logged all (MsgNoFileExists (state_name args));
   Logged all MsgFirstPublish; Logged all MsgNotFirstPublish].

(** The inventory the [catch] of lines 328-341 builds. *)
Definition nothing (generated : Z) : IFileList :=
  {| description := syncFileDescription; version := "1.0.0";
     generatedTime := generated; data := [] |}.


End specified.

(** ** Vocabulary for the properties of paths, streams and navigation *)

(** Whether a string holds the separator. *)
Fixpoint has_slash (s : string) : bool :=
  match s with
  | EmptyString => false
  | String c rest => Ascii.eqb c "/"%char || has_slash rest
  end.

(** A folder or file name: not empty, no separator inside. *)
Definition is_name (s : string) : Prop := s ≠ EmptyString ∧ has_slash s = false.

(** The names along a path: its pieces between separators, empty ones
    dropped. *)
Definition components (path : string) : list string :=
  filter (λ piece, piece ≠ EmptyString) (split_slash path).

(** The bytes of a list of chunks, in order. *)
Definition content (chunks : list string) : string :=
  foldr String.append EmptyString chunks.

(** How many directory levels a call on the client moves the working
    directory down: [ensureDir] of a relative path enters one directory per
    name of the path, [cdup] leaves one; the calls the operations use around
    them ([uploadFrom], [remove]) do not move. *)
Definition descent (c : Call) : Z :=
  match c with
  | ensureDir remoteDirPath => Z.of_nat (length (components remoteDirPath))
  | cdup => (-1)%Z
  | _ => 0%Z
  end.

Definition net_descent (calls : list Call) : Z :=
  foldr (λ c total, (descent c + total)%Z) 0%Z calls.

(** The entries of a walk that the inventory lists: directories and regular
    files. *)
Definition listed (stat : Stats.t) : bool :=
  Stats.isDirectory stat || Stats.isFile stat.

(** The entries of a walk that only draw a warning: symbolic links that are
    neither directories nor regular files. *)
Definition warned (stat : Stats.t) : bool :=
  negb (Stats.isDirectory stat) && negb (Stats.isFile stat) && Stats.isSymbolicLink stat.

(** The calls the connected part of a run can make on the client. *)
Definition session_call (c : Call) : bool :=
  match c with
  | close | writeFileSync _ _ | uploadSpeed _ => false
  | _ => true
  end.

(** An event of the connected part of a run: if it is a call, it is one of
    the session's. *)
Definition of_session (ev : Event) : Prop := ∀ c, ev = Called c → session_call c = true.

Section recording.
Context `{Platform}.

(** What the inventory holds for an entry of the walk: a folder without size
    and hash for a directory; for a regular file that is not a directory, a
    file with the size of the metadata and the digest [fileHash] gave. *)
Definition recorded (files : list Stats.t) (item : FileRecord) : Prop :=
  ∃ stat, stat ∈ files ∧ name item = Stats.path stat
    ∧ ((Stats.isDirectory stat = true ∧ type item = type_folder
        ∧ size item = None ∧ hash item = None)
       ∨ (Stats.isDirectory stat = false ∧ Stats.isFile stat = true
          ∧ type item = type_file ∧ size item = Some (Stats.size stat)
          ∧ ∃ h, hash item = Some h
                 ∧ fileHash (Stats.path stat) "sha256" = Fulfilled h)).

End recording.

(** ** Vocabulary for the deletions *)

Section deleting.
Context `{Platform}.

(** Lines 244-251 of [removeFile] went through from world [w] to [w1]: the
    folders of the path, if any, were entered. *)
Definition entered (path : IFilePath) (w w1 : World) : Prop :=
  match folders path with
  | Some names => ∃ body, perform w (ensureDir (join names)) = (w1, Ok body)
  | None => w1 = w
  end.

(** The events of lines 244-251 when they go through. *)
Definition entering (path : IFilePath) : list Event :=
  match folders path with
  | Some names =>
      [Logged debug (MsgChangingDir (join names)); Called (ensureDir (join names));
       Logged debug MsgDirChanged]
  | None => [Logged debug MsgNoNeedToChangeDir]
  end.

(** The end of [removeFile] and of [removeFolder], after the deletion:
    navigate back to the root folder and log the completion. *)
Definition leaving (path : IFilePath) : Run unit :=
  upDir (length <$> folders path);;
  log info MsgCompleted.

End deleting.

(** * Properties *)

Section laws.
Context `{Platform}.

Lemma calls_of_app (t1 t2 : list Event) :
  calls_of (t1 ++ t2) = calls_of t1 ++ calls_of t2.
Proof.
  induction t1 as [|[c|l m|text|lf sf] t1 IH]; simpl; [done|..]; by rewrite IH.
Qed.

Lemma elem_of_calls_of (c : Call) (t : list Event) :
  c ∈ calls_of t ↔ Called c ∈ t.
Proof.
  induction t as [|ev t IH]; simpl; [split; inversion 1|].
  destruct ev; rewrite ?elem_of_cons, IH; intuition congruence.
Qed.

Lemma exec_app (w : World) (cs1 cs2 : list Call) :
  exec w (cs1 ++ cs2) = exec (exec w cs1) cs2.
Proof. revert w. induction cs1 as [|c cs1 IH]; intros w; simpl; [done|apply IH]. Qed.

(** *** Calls issued *)

Lemma issues_eq {A} (m : Run A) (plan plan' : list Call) :
  issues m plan → plan = plan' → issues m plan'.
Proof. by intros ? <-. Qed.

Lemma issues_ret {A} (a : A) : issues (ret a) [].
Proof. split; intros; simpl; done. Qed.

Lemma issues_throw {A} (e : Thrown) : issues (throw (A:=A) e) [].
Proof. split; intros; simpl; done. Qed.

Lemma issues_log (l : Level) (m : Message) : issues (log l m) [].
Proof. split; intros; simpl; done. Qed.

Lemma issues_call (c : Call) : issues (call c) [c].
Proof.
  split; intros w; intros; unfold call, result, world, trace in *;
    destruct (perform w c) as [w' [body|e]] eqn:E; simpl in *;
    try done; by rewrite E.
Qed.

Lemma issues_bind {A B} (m : Run A) (k : A → Run B) (plan1 plan2 : list Call) :
  issues m plan1 → (∀ a, issues (k a) plan2) → issues (m ≫= k) (plan1 ++ plan2).
Proof.
  intros [Hp Ha Hw] Hk.
  split; intros w; intros; specialize (Hp w); specialize (Ha w);
    specialize (Hw w);
    unfold mbind, Run_bind, bind, result, world, trace in *;
    destruct (m w) as [[[a1|e1|] w1] t1]; simpl in *; try done.
  - destruct (Hk a1) as [Hp2 _ _]. specialize (Hp2 w1).
    unfold trace in Hp2. destruct (k a1 w1) as [[r2 w2] t2]; simpl in *.
    rewrite calls_of_app, (Ha a1 eq_refl). by apply prefix_app.
  - by apply prefix_app_r.
  - by apply prefix_app_r.
  - destruct (Hk a1) as [_ Ha2 _]. specialize (Ha2 w1).
    unfold result, trace in Ha2. destruct (k a1 w1) as [[r2 w2] t2]; simpl in *.
    rewrite calls_of_app, (Ha a1 eq_refl). f_equal. eauto.
  - destruct (Hk a1) as [_ _ Hw2]. specialize (Hw2 w1).
    unfold world, trace in Hw2. destruct (k a1 w1) as [[r2 w2] t2]; simpl in *.
    by rewrite calls_of_app, exec_app, <-Hw.
Qed.

Lemma issues_for {A} (items : list A) (body : A → Run unit) (plan : A → list Call) :
  (∀ x, issues (body x) (plan x)) → issues (for_of items body) (concat (plan <$> items)).
Proof.
  intros Hbody. induction items as [|x items IH]; simpl.
  - apply issues_ret.
  - apply issues_bind; [apply Hbody|intros _; apply IH].
Qed.

(** *** Events recorded *)

Lemma emits_ret {A} (a : A) P : emits_only (ret a) P.
Proof. intros w ev Hev. by apply elem_of_nil in Hev. Qed.

Lemma emits_throw {A} (e : Thrown) P : emits_only (throw (A:=A) e) P.
Proof. intros w ev Hev. by apply elem_of_nil in Hev. Qed.

Lemma emits_log (l : Level) (m : Message) (P : Event → Prop) :
  P (Logged l m) → emits_only (log l m) P.
Proof. intros HP w ev Hev. apply list_elem_of_singleton in Hev. by subst. Qed.

Lemma emits_call (c : Call) (P : Event → Prop) :
  P (Called c) → emits_only (call c) P.
Proof.
  intros HP w ev. unfold call, trace.
  destruct (perform w c) as [w' [body|e]]; simpl;
    intros Hev; apply list_elem_of_singleton in Hev; by subst.
Qed.

Lemma emits_bind {A B} (m : Run A) (k : A → Run B) P :
  emits_only m P → (∀ a, emits_only (k a) P) → emits_only (m ≫= k) P.
Proof.
  intros Hm Hk w ev. specialize (Hm w ev).
  unfold mbind, Run_bind, bind, trace in *.
  destruct (m w) as [[[a1|e1|] w1] t1]; simpl in *; auto.
  specialize (Hk a1 w1 ev). unfold trace in Hk.
  destruct (k a1 w1) as [[r2 w2] t2]; simpl in *.
  rewrite elem_of_app. intros [?|?]; auto.
Qed.

Lemma emits_try_catch {A} (m : Run A) (handler : Thrown → Run A) P :
  emits_only m P → (∀ e, emits_only (handler e) P) → emits_only (try_catch m handler) P.
Proof.
  intros Hm Hh w ev. specialize (Hm w ev).
  unfold try_catch, trace in *.
  destruct (m w) as [[[a1|e1|] w1] t1]; simpl in *; auto.
  specialize (Hh e1 w1 ev). unfold trace in Hh.
  destruct (handler e1 w1) as [[r2 w2] t2]; simpl in *.
  rewrite elem_of_app. intros [?|?]; auto.
Qed.

Lemma emits_for {A} (items : list A) (body : A → Run unit) P :
  (∀ x, x ∈ items → emits_only (body x) P) → emits_only (for_of items body) P.
Proof.
  induction items as [|x items IH]; intros Hbody; simpl.
  - apply emits_ret.
  - apply emits_bind; [apply Hbody; left|intros _; apply IH].
    intros y Hy. apply Hbody. by right.
Qed.

(** *** Settling *)

Lemma settles_ret {A} (a : A) : settles (ret a).
Proof. by intros w. Qed.

Lemma settles_throw {A} (e : Thrown) : settles (throw (A:=A) e).
Proof. by intros w. Qed.

Lemma settles_log (l : Level) (m : Message) : settles (log l m).
Proof. by intros w. Qed.

Lemma settles_call (c : Call) : settles (call c).
Proof. intros w. unfold call, result. by destruct (perform w c) as [w' [body|e]]. Qed.

Lemma settles_request (c : Call) : settles (request c).
Proof. intros w. unfold request, result. by destruct (perform w c) as [w' [body|e]]. Qed.

Lemma settles_bind {A B} (m : Run A) (k : A → Run B) :
  settles m → (∀ a, settles (k a)) → settles (m ≫= k).
Proof.
  intros Hm Hk w. specialize (Hm w).
  unfold mbind, Run_bind, bind, result in *.
  destruct (m w) as [[[a1|e1|] w1] t1]; simpl in *; try done.
  specialize (Hk a1 w1). unfold result in Hk.
  by destruct (k a1 w1) as [[r2 w2] t2].
Qed.

Lemma settles_try_catch {A} (m : Run A) (handler : Thrown → Run A) :
  settles m → (∀ e, settles (handler e)) → settles (try_catch m handler).
Proof.
  intros Hm Hh w. specialize (Hm w).
  unfold try_catch, result in *.
  destruct (m w) as [[[a1|e1|] w1] t1]; simpl in *; try done.
  specialize (Hh e1 w1). unfold result in Hh.
  by destruct (handler e1 w1) as [[r2 w2] t2].
Qed.

Lemma settles_for {A} (items : list A) (body : A → Run unit) :
  (∀ x, settles (body x)) → settles (for_of items body).
Proof.
  intros Hbody. induction items as [|x items IH]; simpl.
  - apply settles_ret.
  - apply settles_bind; [apply Hbody|intros _; apply IH].
Qed.

Lemma never_rejects_try_catch {A} (m : Run A) (handler : Thrown → Run A) :
  settles m → (∀ e, never_rejects (handler e)) → never_rejects (try_catch m handler).
Proof.
  intros Hm Hh w. specialize (Hm w).
  unfold try_catch, result in *.
  destruct (m w) as [[[a1|e1|] w1] t1]; simpl in *; try done; [by eexists|].
  destruct (Hh e1 w1) as [a Ha]. unfold result in Ha.
  destruct (handler e1 w1) as [[r2 w2] t2]; simpl in *. by eexists.
Qed.

End laws.

(** Proof steps that follow the shape of a program. *)
Ltac issue :=
  repeat first
    [ apply issues_log | apply issues_call | apply issues_ret | apply issues_throw
    | eapply issues_bind; [|intros ?] ].

Ltac settle :=
  repeat first
    [ apply settles_log | apply settles_call | apply settles_request
    | apply settles_ret | apply settles_throw
    | apply settles_bind; [|intros ?]
    | apply settles_for; intros ?
    | apply settles_try_catch; [|intros ?] ].

Section operations.
Context `{Platform}.

Lemma concat_constant {A} (c : Call) (items : list A) :
  concat ((λ _, [c]) <$> items) = replicate (length items) c.
Proof. induction items as [|x items IH]; simpl; [done|]. f_equal. exact IH. Qed.

Lemma upDir_issues (dirCount : option nat) : issues (upDir dirCount) (upDir_calls dirCount).
Proof.
  destruct dirCount as [n|]; simpl; [|apply issues_ret].
  eapply issues_eq.
  - apply (issues_for _ _ (λ _, [cdup])). intros _. apply issues_call.
  - by rewrite concat_constant, length_seq.
Qed.

Lemma upDir_settles (dirCount : option nat) : settles (upDir dirCount).
Proof. destruct dirCount; simpl; settle. Qed.

Lemma uploadFile_issues (filePath : string) :
  issues (uploadFile filePath) (uploadFile_calls filePath).
Proof.
  unfold uploadFile, uploadFile_calls, cd_calls. cbv zeta.
  destruct (folders _) as [fs|], (file _) as [f|];
    (eapply issues_eq; [issue; apply upDir_issues|]);
    simpl; by rewrite ?app_nil_r.
Qed.

Lemma createFolder_issues (folderPath : string) :
  issues (createFolder folderPath) (createFolder_calls folderPath).
Proof.
  unfold createFolder, createFolder_calls, cd_calls. cbv zeta.
  destruct (folders _) as [fs|];
    (eapply issues_eq; [issue; apply upDir_issues|]);
    simpl; by rewrite ?app_nil_r.
Qed.

(** What the guarded deletion does, by the reply to [client.remove]. *)
Lemma removeFile_try_run (f : string) (w : World) :
  removeFile_try f w =
    match perform w (remove f) with
    | (w', Ok _) =>
        (Fulfilled tt, w',
         [Logged debug (MsgRemovingFile f); Called (remove f); Logged debug MsgFileRemoved])
    | (w', Fail e) =>
        if decide (code e = Some FileNotFoundOrNoAccess)
        then (Fulfilled tt, w',
              [Logged debug (MsgRemovingFile f); Called (remove f);
               Logged info MsgFileDoesNotExist])
        else (Rejected e, w', [Logged debug (MsgRemovingFile f); Called (remove f)])
    end.
Proof.
  unfold removeFile_try, try_catch, mbind, Run_bind, bind, call, log. simpl.
  destruct (perform w (remove f)) as [w' [body|e]]; simpl; [done|].
  by destruct (decide (code e = Some FileNotFoundOrNoAccess)).
Qed.

(** What the guarded deletion does, by the reply to [client.removeDir]. *)
Lemma removeFolder_try_run (fs : list string) (w : World) :
  removeFolder_try fs w =
    match perform w (removeDir (join fs +:+ "/")) with
    | (w', Ok _) =>
        (Fulfilled tt, w',
         [Logged debug (MsgRemovingFolderDir (join fs +:+ "/"));
          Called (removeDir (join fs +:+ "/"))])
    | (w', Fail e) =>
        if decide (code e = Some FileNotFoundOrNoAccess)
        then (Fulfilled tt, w',
              [Logged debug (MsgRemovingFolderDir (join fs +:+ "/"));
               Called (removeDir (join fs +:+ "/"));
               Logged debug MsgFolderDoesNotExist])
        else (Rejected e, w',
              [Logged debug (MsgRemovingFolderDir (join fs +:+ "/"));
               Called (removeDir (join fs +:+ "/"))])
    end.
Proof.
  unfold removeFolder_try, try_catch, mbind, Run_bind, bind, call, log. simpl.
  destruct (perform w (removeDir _)) as [w' [body|e]]; simpl; [done|].
  by destruct (decide (code e = Some FileNotFoundOrNoAccess)).
Qed.

Lemma removeFile_try_issues (f : string) : issues (removeFile_try f) [remove f].
Proof.
  split; intros w; intros; rewrite removeFile_try_run in *;
    unfold result, world, trace in *;
    destruct (perform w (remove f)) as [w' [body|e]] eqn:E; simpl in *;
    try case_decide; simpl in *; try done; by rewrite E.
Qed.

Lemma removeFolder_try_issues (fs : list string) :
  issues (removeFolder_try fs) [removeDir (join fs +:+ "/")].
Proof.
  split; intros w; intros; rewrite removeFolder_try_run in *;
    unfold result, world, trace in *;
    destruct (perform w (removeDir _)) as [w' [body|e]] eqn:E; simpl in *;
    try case_decide; simpl in *; try done; by rewrite E.
Qed.

Lemma removeFile_issues (filePath : string) :
  issues (removeFile filePath) (removeFile_calls filePath).
Proof.
  unfold removeFile, removeFile_calls, cd_calls. cbv zeta.
  destruct (folders _) as [fs|], (file _) as [f|];
    (eapply issues_eq;
     [issue; first [apply upDir_issues | apply removeFile_try_issues]|]);
    simpl; by rewrite ?app_nil_r.
Qed.

Lemma removeFolder_issues (folderPath : string) :
  issues (removeFolder folderPath) (removeFolder_calls folderPath).
Proof.
  unfold removeFolder, removeFolder_calls. cbv zeta.
  destruct (folders _) as [fs|];
    (eapply issues_eq;
     [issue; first [apply upDir_issues | apply removeFolder_try_issues]|]);
    simpl; by rewrite ?app_nil_r.
Qed.

Lemma phases1to5_issues (args : IFtpDeployArguments) (diffs : DiffResult) :
  issues (phases1to5 args diffs) (phases1to5_calls args diffs).
Proof.
  unfold phases1to5, phases1to5_calls.
  repeat (apply issues_bind; [|intros _]).
  - apply (issues_for _ _ (λ item, createFolder_calls (name item))).
    intros item. apply createFolder_issues.
  - apply (issues_for _ _ (λ item, uploadFile_calls (name item))).
    intros item. apply uploadFile_issues.
  - apply (issues_for _ _ (λ item, uploadFile_calls (name item))).
    intros item. apply uploadFile_issues.
  - apply (issues_for _ _ (λ item, removeFile_calls (name item))).
    intros item. apply removeFile_issues.
  - apply (issues_for _ _ (λ item, removeFolder_calls (name item))).
    intros item. apply removeFolder_issues.
Qed.

Lemma syncChanges_issues (args : IFtpDeployArguments) (diffs : DiffResult) :
  issues (syncChanges args diffs)
         (phases1to5_calls args diffs ++ [uploadFrom (state_name args) (state_name args)]).
Proof.
  unfold syncChanges. apply issues_bind; [apply phases1to5_issues|intros _].
  unfold saveState. eapply issues_eq; [issue|done].
Qed.

End operations.

(** ** The content hasher *)

Section hasher.
Context `{Platform}.

(** A stream that delivers all its chunks and ends gives the digest of
    everything delivered, in order. *)
Lemma listen_to_the_end (algorithm fed : string) (chunks : list string)
    (later : list StreamEvent) :
  listen algorithm fed ((on_data <$> chunks) ++ on_end :: later)
  = Fulfilled (digest_hex algorithm (foldl String.append fed chunks)).
Proof. revert fed. induction chunks as [|chunk chunks IH]; intros fed; simpl; auto. Qed.

Lemma listen_to_an_error (algorithm fed : string) (chunks : list string)
    (e : Thrown) (later : list StreamEvent) :
  listen algorithm fed ((on_data <$> chunks) ++ on_error e :: later) = Pending.
Proof. revert fed. induction chunks as [|chunk chunks IH]; intros fed; simpl; auto. Qed.

(** C8: a file whose stream cannot be read (it emits "error", after any
    number of chunks) leaves the promise of [fileHash] pending for ever, for
    every algorithm the platform provides: it is neither resolved with a
    digest nor rejected with "calc fail". (For an algorithm the platform
    refuses, the promise is rejected before the stream is opened.) *)
Theorem fileHash_unsettled_on_read_error (filename algorithm : string)
    (chunks : list string) (e : Thrown) :
  createReadStream filename = Emits ((on_data <$> chunks) ++ [on_error e]) →
  fileHash filename algorithm
  = match createHash algorithm with
    | Some thrown => Rejected thrown
    | None => Pending
    end.
Proof.
  intros Hstream. unfold fileHash. rewrite Hstream.
  destruct (createHash algorithm); [done|]. apply listen_to_an_error.
Qed.

End hasher.

Lemma fileHash_unsettled_on_read_error_witness :
  fileHash (H:=Demo.platform) "missing.txt" "sha256" = Pending.
Proof.
  apply (fileHash_unsettled_on_read_error (H:=Demo.platform)
           "missing.txt" "sha256" [] (JsError "ENOENT")).
  reflexivity.
Defined.

(** ** The inventory filter *)

Section filter.
Context `{Platform}.

(** C7: a path that matches an exclude pattern is omitted, whatever the
    include patterns are; a path that matches no exclude pattern is kept,
    also when include patterns are configured and it matches none. *)
Theorem exclude_takes_precedence (stat : Stats.t) (args : IFtpDeployArguments) :
  (∀ patterns,
     exclude args = Some patterns →
     multiMatch (Stats.path stat) patterns ≠ [] →
     includeExcludeFilter stat args = false)
  ∧ ((∀ patterns,
        exclude args = Some patterns → multiMatch (Stats.path stat) patterns = []) →
     includeExcludeFilter stat args = true)
  ∧ ((∀ patterns,
        exclude args = Some patterns → multiMatch (Stats.path stat) patterns = []) →
     ∀ patterns,
       include args = Some patterns →
       multiMatch (Stats.path stat) patterns = [] →
       includeExcludeFilter stat args = true).
Proof.
  assert (Hkeep : (∀ patterns, exclude args = Some patterns →
                     multiMatch (Stats.path stat) patterns = []) →
                  includeExcludeFilter stat args = true).
  { intros Hnone. unfold includeExcludeFilter.
    destruct (exclude args) as [ex|]; [rewrite (Hnone ex eq_refl); simpl|];
      by destruct (match include args with Some _ => _ | None => _ end). }
  split; [|split; auto].
  intros patterns Hex Hmatch. unfold includeExcludeFilter. rewrite Hex.
  destruct (multiMatch (Stats.path stat) patterns); [done|].
  rewrite bool_decide_eq_true_2; [done|simpl; lia].
Qed.

End filter.

Lemma exclude_takes_precedence_witness :
  includeExcludeFilter (H:=Demo.platform)
    {| Stats.path := "a.txt"; Stats.isDirectory := false; Stats.isFile := true;
       Stats.isSymbolicLink := false; Stats.size := 10 |}
    {| server := ""; username := ""; password := ""; state_name := "state.json";
       dangerous_clean_slate := false;
       include := Some ["a.txt"]; exclude := Some ["a.txt"]; log_level := "" |} = false
  ∧ includeExcludeFilter (H:=Demo.platform)
      {| Stats.path := "a.txt"; Stats.isDirectory := false; Stats.isFile := true;
         Stats.isSymbolicLink := false; Stats.size := 10 |}
      {| server := ""; username := ""; password := ""; state_name := "state.json";
         dangerous_clean_slate := false;
         include := Some ["b.txt"]; exclude := Some ["c.txt"]; log_level := "" |} = true.
Proof.
  split.
  - apply (proj1 (exclude_takes_precedence (H:=Demo.platform) _ _) ["a.txt"]).
    + reflexivity.
    + vm_compute. discriminate.
  - apply (proj2 (proj2 (exclude_takes_precedence (H:=Demo.platform) _ _))) with ["b.txt"].
    + intros patterns [= <-]. reflexivity.
    + reflexivity.
    + reflexivity.
Defined.

(** ** The Diff Engine *)

Section diff_engine.
Import HashDiffSpec.

Lemma classify_same (o : option Entry) : classify o o = NoOp.
Proof.
  destruct o as [e|]; simpl; [|done].
  destruct (kind e); [|done]. by rewrite decide_True.
Qed.

Lemma nothing_to_do (select : Verdict → list Entry) (m : gmap string Entry)
    (ps : list string) :
  select NoOp = [] →
  concat (select <$> ((λ p, classify (m !! p) (m !! p)) <$> ps)) = [].
Proof.
  intros Hselect. induction ps as [|p ps IH]; simpl; [done|].
  rewrite classify_same, Hselect. exact IH.
Qed.

(** C9: the diff of an inventory with itself has nothing to upload, to
    replace or to delete, and all three byte totals are zero. *)
Theorem diff_same_inventory (I : Inventory) :
  toUpload (diff I I) = [] ∧ toReplace (diff I I) = [] ∧ toDelete (diff I I) = []
  ∧ bytesUpload (diff I I) = 0%Z ∧ bytesReplace (diff I I) = 0%Z
  ∧ bytesDelete (diff I I) = 0%Z.
Proof.
  unfold diff; simpl. rewrite !nothing_to_do by done. done.
Qed.

End diff_engine.

(** ** The phases of the orchestrator *)

Ltac emit :=
  repeat first
    [ apply emits_log | apply emits_call | apply emits_ret | apply emits_throw
    | apply emits_bind; [|intros ?]
    | apply emits_try_catch; [|intros ?]
    | case_decide ].

Section phases.
Context `{Platform}.


Lemma upDir_emits (dirCount : option nat) (P : Event → Prop) :
  P (Called cdup) → emits_only (upDir dirCount) P.
Proof.
  intros HP. destruct dirCount as [n|]; simpl; [|apply emits_ret].
  apply emits_for. intros _ _. by apply emits_call.
Qed.

Lemma spares_log (stateName : string) (l : Level) (m : Message) :
  m ≠ MsgUploading stateName → spares stateName (Logged l m).
Proof. intros Hm. split; [intros [= _ ?]; done|intros remotePath [=]]. Qed.

Lemma spares_call (stateName : string) (c : Call) :
  (∀ remotePath, c ≠ uploadFrom stateName remotePath) → spares stateName (Called c).
Proof. intros Hc. split; [intros [=]|intros remotePath [= ?]; by eapply Hc]. Qed.

Ltac spare :=
  emit; try apply upDir_emits;
  first [ apply spares_log; congruence | apply spares_call; congruence ].

Lemma uploadFile_spares (stateName filePath : string) :
  filePath ≠ stateName → emits_only (uploadFile filePath) (spares stateName).
Proof.
  intros Hne. unfold uploadFile. cbv zeta.
  destruct (folders _) as [fs|], (file _) as [f|]; spare.
Qed.

Lemma createFolder_spares (stateName folderPath : string) :
  emits_only (createFolder folderPath) (spares stateName).
Proof. unfold createFolder. cbv zeta. destruct (folders _) as [fs|]; spare. Qed.

Lemma removeFile_spares (stateName filePath : string) :
  emits_only (removeFile filePath) (spares stateName).
Proof.
  unfold removeFile, removeFile_try. cbv zeta.
  destruct (folders _) as [fs|], (file _) as [f|]; spare.
Qed.

Lemma removeFolder_spares (stateName folderPath : string) :
  emits_only (removeFolder folderPath) (spares stateName).
Proof.
  unfold removeFolder, removeFolder_try. cbv zeta.
  destruct (folders _) as [fs|]; spare.
Qed.

Lemma phases1to5_spares (args : IFtpDeployArguments) (diffs : DiffResult) :
  emits_only (phases1to5 args diffs) (spares (state_name args)).
Proof.
  unfold phases1to5.
  repeat (apply emits_bind; [|intros _]); apply emits_for; intros item Hitem.
  - apply createFolder_spares.
  - apply uploadFile_spares. by apply list_elem_of_filter in Hitem as [? _].
  - apply uploadFile_spares. by apply list_elem_of_filter in Hitem as [? _].
  - apply removeFile_spares.
  - apply removeFolder_spares.
Qed.

(** The block of lines 349-394, by the outcome of the phases and of the
    upload of the state document. *)
Lemma uploadBlock_run (args : IFtpDeployArguments) (diffs : DiffResult) (w : World) :
  let header :=
    [Logged all MsgRule;
     Logged all (MsgMakingChanges
                   (length (delete diffs) + length (upload diffs) + length (replace diffs)));
     Logged all (MsgSizes (sizeUpload diffs) (sizeDelete diffs) (sizeReplace diffs));
     Logged all MsgRule] in
  uploadBlock args diffs w =
    match syncChanges args diffs w with
    | (Fulfilled _, w1, t1) => (Fulfilled false, w1, header ++ t1)
    | (Rejected e, w1, t1) =>
        if decide (code e = Some 553%Z)
        then (Fulfilled true, w1, header ++ t1 ++ [Logged warn MsgError553])
        else (Fulfilled false, w1, header ++ t1 ++ [Logged warn (MsgError e)])
    | (Pending, w1, t1) => (Pending, w1, header ++ t1)
    end.
Proof.
  unfold uploadBlock, try_catch, mbind, Run_bind, bind, log, ret. simpl.
  destruct (syncChanges args diffs w) as [[[[]|e|] w1] t1]; simpl;
    rewrite ?app_nil_r; try done.
  by destruct (decide (code e = Some 553%Z)).
Qed.

(** The session, once the previous inventory is fetched and the edit script
    computed: nothing follows the block of lines 349-394. *)
Lemma session_run (args : IFtpDeployArguments) (localFiles serverFiles : IFileList)
    (diffs : DiffResult) (returned : bool) (w w1 w2 : World) (t1 t2 : list Event) :
  fetchServerFiles args w = (Fulfilled serverFiles, w1, t1) →
  getDiffs localFiles serverFiles = inl diffs →
  uploadBlock args diffs w1 = (Fulfilled returned, w2, t2) →
  session args localFiles w
  = (Fulfilled (returned, bytes_sum (sizeUpload diffs) (sizeReplace diffs)), w2,
     t1 ++ GetDiffs localFiles serverFiles :: t2).
Proof.
  intros Hfetch Hdiffs Hblock.
  unfold session, try_catch, mbind, Run_bind, bind, consult, ret.
  rewrite Hfetch. simpl. rewrite Hdiffs, Hblock. simpl. by rewrite app_nil_r.
Qed.

(** After the session [deploy] closes the connection and reports the speed,
    unless the [return] of line 390 was taken; it issues no other call. *)
Lemma deploy_calls (args : IFtpDeployArguments) (localFiles : IFileList)
    (returned : bool) (totalBytesUploaded : Bytes) (w w1 w2 w3 : World) (body : string)
    (t1 t3 : list Event) :
  getLocalFiles args w = (Fulfilled localFiles, w1, t1) →
  perform w1 (writeFileSync ("./" +:+ state_name args) (JSON_stringify localFiles))
  = (w2, Ok body) →
  connected args localFiles w2 = (Fulfilled (returned, totalBytesUploaded), w3, t3) →
  ∃ closing,
    calls_of (trace (deploy args w))
    = calls_of t1
      ++ writeFileSync ("./" +:+ state_name args) (JSON_stringify localFiles)
      :: calls_of t3 ++ closing
    ∧ closing `prefix_of` [close; uploadSpeed totalBytesUploaded]
    ∧ (returned = true → closing = []).
Proof.
  intros Hlocal Hwrite Hconnected.
  unfold deploy, mbind, Run_bind, bind, log, trace. simpl. rewrite Hlocal.
  unfold call at 1. rewrite Hwrite. simpl. rewrite Hconnected.
  assert (Hsplit : ∀ closing : list Event,
            calls_of (t1 ++ Called (writeFileSync ("./" +:+ state_name args)
                                      (JSON_stringify localFiles)) :: t3 ++ closing)
            = calls_of t1
              ++ writeFileSync ("./" +:+ state_name args) (JSON_stringify localFiles)
              :: calls_of t3 ++ calls_of closing).
  { intros closing. rewrite calls_of_app. simpl. by rewrite calls_of_app. }
  destruct returned; simpl.
  - eexists. split; [apply Hsplit|]. split; [apply prefix_nil|done].
  - unfold call, request.
    destruct (perform w3 close) as [w4 [body4|e4]]; simpl;
      [destruct (perform w4 (uploadSpeed totalBytesUploaded)) as [w5 [body5|e5]]; simpl|];
      (eexists; split; [apply Hsplit|]; split; [simpl|done]).
    + done.
    + done.
    + by exists [uploadSpeed totalBytesUploaded].
Qed.

End phases.

Section orchestrator.
Context `{Platform}.

(** C1, amended: the calls of lines 357-385 follow the five phases in
    order, entry after entry: folders of the upload list are created, then
    the files of the upload list other than the state document are
    uploaded, then the files of the replace list other than the state
    document, then the files of the delete list are removed, then its
    folders; the state document is uploaded last, and not at all unless the
    five phases are fulfilled. *)
Theorem phases_in_fixed_order (args : IFtpDeployArguments) (diffs : DiffResult)
    (w : World) :
  let plan :=
    each createFolder_calls (of_type type_folder (upload diffs))
    ++ each uploadFile_calls (not_state args (of_type type_file (upload diffs)))
    ++ each uploadFile_calls (not_state args (of_type type_file (replace diffs)))
    ++ each removeFile_calls (of_type type_file (delete diffs))
    ++ each removeFolder_calls (of_type type_folder (delete diffs)) in
  let saved := uploadFrom (state_name args) (state_name args) in
  calls_of (trace (syncChanges args diffs w)) `prefix_of` plan ++ [saved]
  ∧ (result (syncChanges args diffs w) = Fulfilled tt →
     calls_of (trace (syncChanges args diffs w)) = plan ++ [saved])
  ∧ (result (phases1to5 args diffs w) ≠ Fulfilled tt →
     saved ∉ calls_of (trace (syncChanges args diffs w))).
Proof.
  intros plan saved. split; [|split].
  - apply (issues_prefix _ _ (syncChanges_issues args diffs)).
  - apply (issues_all _ _ (syncChanges_issues args diffs)).
  - intros Hfailed Hsaved. apply elem_of_calls_of in Hsaved.
    pose proof (phases1to5_spares args diffs w (Called saved)) as Hspared.
    unfold syncChanges, mbind, Run_bind, bind, result, trace in *.
    destruct (phases1to5 args diffs w) as [[[[]|e|] w1] t1]; simpl in *;
      try done; by destruct (Hspared Hsaved) as [_ Hnot]; eapply Hnot.
Qed.

(** C2, amended: no event of phases 1 to 5 is an upload of the state
    document: [uploadFile] is not run on the entry named as the state
    document and no [client.uploadFrom] takes the state document as its
    source; a run that completes uploads it in its last call. *)
Theorem phases_never_upload_state (args : IFtpDeployArguments) (diffs : DiffResult)
    (w : World) :
  (∀ ev, ev ∈ trace (phases1to5 args diffs w) →
         ¬ uploads_entry (state_name args) ev
         ∧ ∀ remotePath, ev ≠ Called (uploadFrom (state_name args) remotePath))
  ∧ (result (syncChanges args diffs w) = Fulfilled tt →
     last (calls_of (trace (syncChanges args diffs w)))
     = Some (uploadFrom (state_name args) (state_name args))).
Proof.
  split.
  - intros ev Hev. by apply (phases1to5_spares args diffs w ev).
  - intros Hdone.
    rewrite (issues_all _ _ (syncChanges_issues args diffs) w tt Hdone).
    apply last_snoc.
Qed.


End orchestrator.

(** *** The phases on concrete edit scripts *)

Example someChanges_calls :
  calls_of (trace (syncChanges (H:=Demo.platform) Demo.args Demo.someChanges [])) =
    [ensureDir "docs"; cdup;
     ensureDir "docs"; uploadFrom "docs/b.txt" "b.txt"; cdup;
     uploadFrom "a.txt" "a.txt";
     ensureDir "old"; remove "c.txt"; cdup;
     removeDir "old/"; cdup;
     uploadFrom ".ftp-deploy-sync-state.json" ".ftp-deploy-sync-state.json"].
Proof. reflexivity. Qed.

Lemma phases_in_fixed_order_witness :
  calls_of (trace (syncChanges (H:=Demo.platform) Demo.args Demo.someChanges [])) =
    (each createFolder_calls [Demo.folderRecord "docs"]
     ++ each uploadFile_calls [Demo.fileRecord "docs/b.txt"]
     ++ each uploadFile_calls [Demo.fileRecord "a.txt"]
     ++ each removeFile_calls [Demo.fileRecord "old/c.txt"]
     ++ each removeFolder_calls [Demo.folderRecord "old"])
    ++ [uploadFrom ".ftp-deploy-sync-state.json" ".ftp-deploy-sync-state.json"].
Proof.
  apply (proj1 (proj2 (phases_in_fixed_order (H:=Demo.platform) Demo.args Demo.someChanges []))).
  reflexivity.
Defined.

(** C1, as worded, fails: the upload list holds the state document and
    [a.txt]; the words ask for the state document to be uploaded in phase 2,
    before [a.txt], and once more at the end, while the run uploads [a.txt]
    first and the state document once, at the end. *)
Lemma state_document_skipped_in_phase_2 :
  ¬ applies_specified_order (H:=Demo.platform) Demo.args Demo.stateIsNew [].
Proof.
  intros Hspecified. specialize (Hspecified eq_refl).
  vm_compute in Hspecified. discriminate.
Qed.

Example stateIsNew_calls :
  calls_of (trace (syncChanges (H:=Demo.platform) Demo.args Demo.stateIsNew [])) =
    [uploadFrom "a.txt" "a.txt";
     uploadFrom ".ftp-deploy-sync-state.json" ".ftp-deploy-sync-state.json"]
  ∧ specified_calls Demo.args Demo.stateIsNew =
    [uploadFrom ".ftp-deploy-sync-state.json" ".ftp-deploy-sync-state.json";
     uploadFrom "a.txt" "a.txt";
     uploadFrom ".ftp-deploy-sync-state.json" ".ftp-deploy-sync-state.json"].
Proof. split; reflexivity. Qed.

Lemma phases_never_upload_state_witness :
  (¬ uploads_entry ".ftp-deploy-sync-state.json" (Logged all (MsgUploading "a.txt"))
   ∧ ∀ remotePath,
       Logged all (MsgUploading "a.txt")
       ≠ Called (uploadFrom ".ftp-deploy-sync-state.json" remotePath))
  ∧ last (calls_of (trace (syncChanges (H:=Demo.platform) Demo.args Demo.stateIsNew [])))
    = Some (uploadFrom ".ftp-deploy-sync-state.json" ".ftp-deploy-sync-state.json").
Proof.
  split.
  - apply (proj1 (phases_never_upload_state (H:=Demo.platform) Demo.args Demo.stateIsNew [])).
    vm_compute. apply list_elem_of_here.
  - apply (proj2 (phases_never_upload_state (H:=Demo.platform) Demo.args Demo.stateIsNew [])).
    reflexivity.
Defined.

(** C2, as worded, fails: the delete list holds the entry of the state
    document, and phase 4 runs [removeFile] on it. *)
Lemma state_document_deleted_in_phase_4 :
  ¬ never_handles_state (H:=Demo.platform) Demo.args Demo.stateIsGone [].
Proof.
  intros Hnever.
  destruct (Hnever (Logged all (MsgRemoving ".ftp-deploy-sync-state.json")))
    as [_ Hdeletes].
  - vm_compute. apply list_elem_of_here.
  - apply Hdeletes. by left.
Qed.

Example stateIsGone_calls :
  calls_of (trace (phases1to5 (H:=Demo.platform) Demo.args Demo.stateIsGone []))
  = [remove ".ftp-deploy-sync-state.json"].
Proof. reflexivity. Qed.


Example failed_upload_calls :
  calls_of (trace (uploadBlock (H:=Demo.platform) Demo.args Demo.someChanges
                     [Ok ""; Ok ""; Ok ""; Fail (FTPError 452 "Insufficient storage")]))
  = [ensureDir "docs"; cdup; ensureDir "docs"; uploadFrom "docs/b.txt" "b.txt"].
Proof. reflexivity. Qed.

(** ** Bootstrap, deletions, failures *)

Section run.
Context `{Platform}.

(** Lines 314-341, by the flag and the replies of the server. *)
Lemma fetchServerFiles_run (args : IFtpDeployArguments) (w : World) :
  fetchServerFiles args w =
    if dangerous_clean_slate args then
      match perform w clearWorkingDir with
      | (w1, Ok _) =>
          (Fulfilled (nothing (getTime w1)), w1,
           [Logged all MsgRule; Logged all MsgCleanSlate; Called clearWorkingDir;
            Logged all MsgClearComplete] ++ firstPublish args)
      | (w1, Fail _) =>
          (Fulfilled (nothing (getTime w1)), w1,
           [Logged all MsgRule; Logged all MsgCleanSlate; Called clearWorkingDir]
           ++ firstPublish args)
      end
    else
      match perform w (downloadTo (state_name args)) with
      | (w1, Fail _) =>
          (Fulfilled (nothing (getTime w1)), w1,
           Called (downloadTo (state_name args)) :: firstPublish args)
      | (w1, Ok body) =>
          match JSON_parse body with
          | None =>
              (Fulfilled (nothing (getTime w1)), w1,
               Called (downloadTo (state_name args)) :: firstPublish args)
          | Some serverFiles =>
              (Fulfilled serverFiles, w1,
               [Called (downloadTo (state_name args)); Logged all MsgRule;
                Logged all (MsgLastPublished (generatedTime serverFiles))])
          end
      end.
Proof.
  unfold fetchServerFiles, downloadFileList, try_catch, mbind, Run_bind, bind,
    call, request, log, throw, ret, now.
  destruct (dangerous_clean_slate args); simpl.
  - by destruct (perform w clearWorkingDir) as [w1 [body|e]].
  - destruct (perform w (downloadTo (state_name args))) as [w1 [body|e]]; simpl; [|done].
    by destruct (JSON_parse body).
Qed.

(** The session hands the inventory it fetched to the diff tool. *)
Lemma session_diffs (args : IFtpDeployArguments) (localFiles serverFiles : IFileList)
    (w w1 : World) (t1 : list Event) :
  fetchServerFiles args w = (Fulfilled serverFiles, w1, t1) →
  ∃ rest, trace (session args localFiles w) = t1 ++ GetDiffs localFiles serverFiles :: rest.
Proof.
  intros Hfetch.
  unfold session, sessionCatch, try_catch, mbind, Run_bind, bind, consult, log, throw, ret,
    trace.
  rewrite Hfetch. simpl.
  destruct (getDiffs localFiles serverFiles) as [diffs|thrown]; simpl.
  - destruct (uploadBlock args diffs w1) as [[[returned|e|] w2] t2]; simpl;
      try case_decide; simpl; rewrite <-?app_assoc; simpl; by eexists.
  - case_decide; simpl; rewrite <-?app_assoc; simpl; by eexists.
Qed.

End run.

(** ** What becomes of a failure *)

Section failure.
Context `{Platform}.

Ltac settled :=
  repeat first
    [ apply upDir_settles | progress settle | case_decide ].

Lemma uploadFile_settles (filePath : string) : settles (uploadFile filePath).
Proof.
  unfold uploadFile. cbv zeta. destruct (folders _) as [fs|], (file _) as [f|]; settled.
Qed.

Lemma createFolder_settles (folderPath : string) : settles (createFolder folderPath).
Proof. unfold createFolder. cbv zeta. destruct (folders _) as [fs|]; settled. Qed.

Lemma removeFile_settles (filePath : string) : settles (removeFile filePath).
Proof.
  unfold removeFile, removeFile_try. cbv zeta.
  destruct (folders _) as [fs|], (file _) as [f|]; settled.
Qed.

Lemma removeFolder_settles (folderPath : string) : settles (removeFolder folderPath).
Proof.
  unfold removeFolder, removeFolder_try. cbv zeta. destruct (folders _) as [fs|]; settled.
Qed.

Lemma syncChanges_settles (args : IFtpDeployArguments) (diffs : DiffResult) :
  settles (syncChanges args diffs).
Proof.
  unfold syncChanges. apply settles_bind; [|intros _; unfold saveState; settle].
  unfold phases1to5.
  repeat (apply settles_bind; [|intros _]); apply settles_for; intros item;
    auto using uploadFile_settles, createFolder_settles, removeFile_settles,
      removeFolder_settles.
Qed.

Lemma uploadBlock_never_rejects (args : IFtpDeployArguments) (diffs : DiffResult) :
  never_rejects (uploadBlock args diffs).
Proof.
  intros w. rewrite uploadBlock_run. cbv zeta.
  pose proof (syncChanges_settles args diffs w) as Hsettles. unfold result in *.
  destruct (syncChanges args diffs w) as [[[[]|e|] w1] t1]; simpl in *;
    try case_decide; try done; by eexists.
Qed.

Lemma sessionCatch_never_rejects (totalBytesUploaded : Bytes) (error : Thrown) :
  never_rejects (sessionCatch totalBytesUploaded error).
Proof.
  intros w. unfold sessionCatch, mbind, Run_bind, bind, log, ret, result.
  case_decide; simpl; by eexists.
Qed.

Lemma last_app_snoc {A} (l1 l2 : list A) (x : A) : last (l1 ++ l2 ++ [x]) = Some x.
Proof. by rewrite app_assoc, last_snoc. Qed.

Lemma never_rejects_settles {A} (m : Run A) : never_rejects m → settles m.
Proof. intros Hm w. destruct (Hm w) as [a ->]. done. Qed.

Lemma session_never_rejects (args : IFtpDeployArguments) (localFiles : IFileList) :
  never_rejects (session args localFiles).
Proof.
  unfold session. apply never_rejects_try_catch;
    [|intros e; apply sessionCatch_never_rejects].
  apply settles_bind.
  - intros w. rewrite fetchServerFiles_run. unfold result.
    repeat case_match; done.
  - intros serverFiles. apply settles_bind; [by intros w|intros _].
    destruct (getDiffs localFiles serverFiles) as [diffs|thrown]; [|apply settles_throw].
    apply never_rejects_settles, never_rejects_try_catch;
      [|intros e; apply sessionCatch_never_rejects].
    apply settles_bind; [|intros returned; apply settles_ret].
    apply never_rejects_settles, uploadBlock_never_rejects.
Qed.

Lemma connected_never_rejects (args : IFtpDeployArguments) (localFiles : IFileList) :
  never_rejects (connected args localFiles).
Proof.
  unfold connected. apply never_rejects_try_catch.
  - apply settles_bind; [apply settles_call|intros _].
    apply never_rejects_settles, session_never_rejects.
  - intros err w. by eexists.
Qed.

(** C6, amended: a connection failure and a failure of the phases are
    caught inside [deploy] and handed to the logger at level [warn] (the
    thrown value; for the code 553 a fixed line only, after which [deploy]
    returns); the block of lines 301-409 never rejects, and when [deploy]
    rejects, the value comes from the inventory, from [fs.writeFileSync],
    from [client.close] or from the closing speed report. *)
Theorem failures_are_logged_not_rethrown (args : IFtpDeployArguments) :
  (∀ localFiles w, ∃ outcome, result (connected args localFiles w) = Fulfilled outcome)
  ∧ (∀ localFiles w w' e,
       perform w (access (server args) (username args) (password args)) = (w', Fail e) →
       connected args localFiles w =
         (Fulfilled (false, no_bytes), w',
          [Called (access (server args) (username args) (password args));
           Logged warn (MsgThrown e)]))
  ∧ (∀ diffs w e,
       result (syncChanges args diffs w) = Rejected e →
       result (uploadBlock args diffs w) = Fulfilled (bool_decide (code e = Some 553%Z))
       ∧ last (trace (uploadBlock args diffs w))
         = Some (Logged warn (if decide (code e = Some 553%Z)
                              then MsgError553 else MsgError e)))
  ∧ (∀ w e,
       result (deploy args w) = Rejected e →
       result (getLocalFiles args w) = Rejected e
       ∨ ∃ w1 w2 c,
           perform w1 c = (w2, Fail e)
           ∧ ((∃ localPath content, c = writeFileSync localPath content)
              ∨ c = close
              ∨ ∃ totalBytesUploaded, c = uploadSpeed totalBytesUploaded)).
Proof.
  split; [|split; [|split]].
  - intros localFiles w. apply connected_never_rejects.
  - intros localFiles w w' e Hfail.
    unfold connected, try_catch, mbind, Run_bind, bind, call, log, ret.
    by rewrite Hfail.
  - intros diffs w e Hfailed. rewrite uploadBlock_run. cbv zeta.
    destruct (syncChanges args diffs w) as [[r w1] t1].
    unfold result in Hfailed. simpl in Hfailed. subst r.
    case_decide.
    + rewrite bool_decide_eq_true_2 by done. split; [done|].
      unfold trace. cbn [snd]. apply last_app_snoc.
    + rewrite bool_decide_eq_false_2 by done. split; [done|].
      unfold trace. cbn [snd]. apply last_app_snoc.
  - intros w e.
    unfold deploy, mbind, Run_bind, bind, call, request, log, ret, result. simpl.
    destruct (getLocalFiles args w) as [[[localFiles|e0|] w1] t1]; simpl;
      [|by left; congruence|done].
    destruct (perform w1 (writeFileSync _ _)) as [w2 [body|e2]] eqn:Hwrite; simpl.
    2:{ intros [= ->]. right. exists w1, w2, (writeFileSync ("./" +:+ state_name args)
                                               (JSON_stringify localFiles)).
        split; [done|left; by eexists _, _]. }
    destruct (connected_never_rejects args localFiles w2) as [[returned total] Hc].
    unfold result in Hc.
    destruct (connected args localFiles w2) as [[r3 w3] t3]; simpl in *. subst r3.
    destruct returned; simpl; [done|].
    destruct (perform w3 close) as [w4 [body4|e4]] eqn:Hclose; simpl.
    2:{ intros [= ->]. right. exists w3, w4, close. split; [done|by right; left]. }
    destruct (perform w4 (uploadSpeed total)) as [w5 [body5|e5]] eqn:Hspeed; simpl;
      [done|].
    intros [= ->]. right. exists w4, w5, (uploadSpeed total).
    split; [done|right; right; by eexists].
Qed.

End failure.

Lemma failures_are_logged_not_rethrown_witness :
  connected (H:=Demo.platform) Demo.args (nothing (H:=Demo.platform) 0)
    [Fail (FTPError 530 "Login incorrect")]
  = (Fulfilled (false, no_bytes), [],
     [Called (access "ftp.example.com" "user" "secret");
      Logged warn (MsgThrown (FTPError 530 "Login incorrect"))])
  ∧ result (uploadBlock (H:=Demo.platform) Demo.args Demo.someChanges
              [Ok ""; Ok ""; Ok ""; Fail (FTPError 553 "Requested action not taken")])
    = Fulfilled true.
Proof.
  split.
  - apply (proj1 (proj2 (failures_are_logged_not_rethrown (H:=Demo.platform) Demo.args))).
    reflexivity.
  - apply (proj1 (proj2 (proj2 (failures_are_logged_not_rethrown (H:=Demo.platform)
                                  Demo.args)))
             Demo.someChanges
             [Ok ""; Ok ""; Ok ""; Fail (FTPError 553 "Requested action not taken")]
             (FTPError 553 "Requested action not taken")).
    reflexivity.
Defined.

(** C6, as worded, fails: the server refuses the upload of [a.txt] with the
    code 553; [deploy] logs a fixed line and returns, and its promise is
    fulfilled. *)
Lemma refused_upload_is_swallowed :
  ¬ propagates (H:=Demo.platform) Demo.args Demo.refusedUpload.
Proof.
  intros Hpropagates.
  specialize (Hpropagates (uploadFrom "a.txt" "a.txt")
                (FTPError 553 "Requested action not taken")).
  assert (Hresult : result (deploy (H:=Demo.platform) Demo.args Demo.refusedUpload)
                    = Rejected (FTPError 553 "Requested action not taken")).
  { apply Hpropagates.
    - vm_compute. apply list_elem_of_further, list_elem_of_here.
    - right. by eexists _, _. }
  vm_compute in Hresult. discriminate.
Qed.

Example refused_upload_run :
  result (deploy (H:=Demo.platform) Demo.args Demo.refusedUpload) = Fulfilled tt
  ∧ last (trace (deploy (H:=Demo.platform) Demo.args Demo.refusedUpload))
    = Some (Logged warn MsgError553).
Proof. split; reflexivity. Qed.

Example refused_login_run :
  result (deploy (H:=Demo.platform) Demo.args Demo.refusedLogin) = Fulfilled tt
  ∧ calls_of (trace (deploy (H:=Demo.platform) Demo.args Demo.refusedLogin))
    = [writeFileSync "./.ftp-deploy-sync-state.json" "{}";
       access "ftp.example.com" "user" "secret"; close; uploadSpeed no_bytes]
  ∧ Logged warn (MsgThrown (FTPError 530 "Login incorrect"))
    ∈ trace (deploy (H:=Demo.platform) Demo.args Demo.refusedLogin).
Proof. split; [|split]; [reflexivity..|]. vm_compute. repeat constructor. Qed.

(** ** Bootstrap and deletions *)

Section bootstrap_and_deletions.
Context `{Platform}.

Lemma uploadBlock_calls (args : IFtpDeployArguments) (diffs : DiffResult) (w : World) :
  calls_of (trace (uploadBlock args diffs w)) = calls_of (trace (syncChanges args diffs w)).
Proof.
  rewrite uploadBlock_run. cbv zeta.
  destruct (syncChanges args diffs w) as [[[[]|e|] w1] t1]; try case_decide;
    unfold trace; simpl; rewrite ?calls_of_app; simpl; by rewrite ?app_nil_r.
Qed.

(** C3: when the clean-slate flag is set, or the state document cannot be
    downloaded, or what was downloaded cannot be parsed, lines 314-341
    yield an inventory with no entry (with the flag set, after the call that
    wipes the remote directory, and without trying a download), and the run
    continues as a sync against it: the session asks the diff tool for the
    changes from that empty inventory to the local one and, with the edit
    script it returns, runs the block of lines 349-394, whose calls are
    those of the phases and of the upload of the state document. *)
Theorem bootstrap_with_empty_inventory (args : IFtpDeployArguments)
    (localFiles : IFileList) (w : World) :
  dangerous_clean_slate args = true
  ∨ (∃ w' reason, perform w (downloadTo (state_name args)) = (w', Fail reason))
  ∨ (∃ w' body, perform w (downloadTo (state_name args)) = (w', Ok body)
                ∧ JSON_parse body = None) →
  ∃ serverFiles w1 t1 rest,
    fetchServerFiles args w = (Fulfilled serverFiles, w1, t1)
    ∧ data serverFiles = []
    ∧ trace (session args localFiles w) = t1 ++ GetDiffs localFiles serverFiles :: rest
    ∧ (dangerous_clean_slate args = true → calls_of t1 = [clearWorkingDir])
    ∧ (∀ diffs,
         getDiffs localFiles serverFiles = inl diffs →
         ∃ returned,
           uploadBlock args diffs w1
           = (Fulfilled returned, world (session args localFiles w), rest)
           ∧ result (session args localFiles w)
             = Fulfilled (returned, bytes_sum (sizeUpload diffs) (sizeReplace diffs))
           ∧ calls_of (trace (session args localFiles w))
             = calls_of t1 ++ calls_of (trace (syncChanges args diffs w1))).
Proof.
  intros Hcase.
  assert (∃ serverFiles w1 t1,
            fetchServerFiles args w = (Fulfilled serverFiles, w1, t1)
            ∧ data serverFiles = []
            ∧ (dangerous_clean_slate args = true → calls_of t1 = [clearWorkingDir]))
    as (serverFiles & w1 & t1 & Hfetch & Hdata & Hwiped).
  { rewrite fetchServerFiles_run.
    destruct (dangerous_clean_slate args) eqn:Hflag.
    - destruct (perform w clearWorkingDir) as [w1 [body|e]];
        by eexists _, _, _.
    - destruct Hcase as [?|[(w' & reason & Hdown)|(w' & body & Hdown & Hparse)]];
        [done|..]; rewrite Hdown; [|rewrite Hparse]; by eexists _, _, _. }
  destruct (session_diffs args localFiles serverFiles w w1 t1 Hfetch) as [rest Hrest].
  exists serverFiles, w1, t1, rest. repeat (split; [done|]).
  intros diffs Hdiffs.
  destruct (uploadBlock_never_rejects args diffs w1) as [returned Hreturned].
  destruct (uploadBlock args diffs w1) as [[r w2] t2] eqn:Hblock.
  unfold result in Hreturned. simpl in Hreturned. subst r.
  pose proof (session_run _ _ _ _ _ _ _ _ _ _ Hfetch Hdiffs Hblock) as Hsession.
  pose proof (uploadBlock_calls args diffs w1) as Hcalls. rewrite Hblock in Hcalls.
  rewrite Hsession in *. unfold trace, world, result in *. simpl in *.
  apply app_inv_head in Hrest. injection Hrest as <-.
  exists returned. repeat split. by rewrite calls_of_app, <-Hcalls.
Qed.

Lemma for_of_app {A} (earlier later : list A) (body : A → Run unit)
    (w0 w : World) (t0 : list Event) :
  for_of earlier body w0 = (Fulfilled tt, w, t0) →
  for_of (earlier ++ later) body w0
  = (result (for_of later body w), world (for_of later body w),
     t0 ++ trace (for_of later body w)).
Proof.
  revert w0 t0. induction earlier as [|x earlier IH]; intros w0 t0; simpl.
  - intros [= -> <-]. by destruct (for_of later body w) as [[r w1] t1].
  - unfold mbind, Run_bind, bind.
    destruct (body x w0) as [[[[]|e|] w1] t1]; [|done..].
    destruct (for_of earlier body w1) as [[r2 w2] t2] eqn:Hearlier.
    intros [= -> -> <-]. rewrite (IH _ _ Hearlier). by rewrite app_assoc.
Qed.

Lemma for_of_rejected {A} (x : A) (later : list A) (body : A → Run unit)
    (w w1 : World) (t1 : list Event) (e : Thrown) :
  body x w = (Rejected e, w1, t1) →
  for_of (x :: later) body w = (Rejected e, w1, t1).
Proof. intros Hbody. simpl. unfold mbind, Run_bind, bind. by rewrite Hbody. Qed.

Lemma for_of_fulfilled {A} (x : A) (later : list A) (body : A → Run unit)
    (w w1 : World) (t1 : list Event) :
  body x w = (Fulfilled tt, w1, t1) →
  for_of (x :: later) body w
  = (result (for_of later body w1), world (for_of later body w1),
     t1 ++ trace (for_of later body w1)).
Proof.
  intros Hbody. simpl. unfold mbind, Run_bind, bind. rewrite Hbody.
  by destruct (for_of later body w1) as [[r w2] t2].
Qed.

(** [removeFile] once the folders are entered, by the reply to
    [client.remove]. *)
Lemma removeFile_run (filePath f : string) (w w1 w2 : World) (reply : Reply) :
  file (getFileBreadcrumbs filePath) = Some f →
  entered (getFileBreadcrumbs filePath) w w1 →
  perform w1 (remove f) = (w2, reply) →
  let path := getFileBreadcrumbs filePath in
  let before :=
    Logged all (MsgRemoving filePath)
    :: entering path ++ [Logged debug (MsgRemovingFile f); Called (remove f)] in
  let rest := leaving path w2 in
  removeFile filePath w =
    match reply with
    | Ok _ =>
        (result rest, world rest, before ++ Logged debug MsgFileRemoved :: trace rest)
    | Fail e =>
        if decide (code e = Some FileNotFoundOrNoAccess)
        then (result rest, world rest,
              before ++ Logged info MsgFileDoesNotExist :: trace rest)
        else (Rejected e, w2, before)
    end.
Proof.
  intros Hfile Hentered Hremove. cbv zeta.
  unfold removeFile, leaving, entered, entering in *. cbv zeta. rewrite Hfile.
  unfold mbind, Run_bind, bind, log, call, result, world, trace.
  destruct (folders (getFileBreadcrumbs filePath)) as [names|]; simpl in *.
  - destruct Hentered as [body Hentered]. rewrite Hentered. simpl.
    rewrite removeFile_try_run, Hremove.
    destruct reply as [body'|e];
      [|destruct (decide (code e = Some FileNotFoundOrNoAccess))]; simpl; try done;
      destruct (for_of (seq 0 (length names)) (λ _, call cdup) w2) as [[[[]|e'|] w3] t3];
      simpl; done.
  - subst w1. rewrite removeFile_try_run, Hremove.
    by destruct reply as [body'|e];
      [|destruct (decide (code e = Some FileNotFoundOrNoAccess))].
Qed.

(** [removeFolder], by the reply to [client.removeDir]. *)
Lemma removeFolder_run (folderPath : string) (names : list string) (w w2 : World)
    (reply : Reply) :
  folders (getFileBreadcrumbs (folderPath +:+ "/")) = Some names →
  perform w (removeDir (join names +:+ "/")) = (w2, reply) →
  let path := getFileBreadcrumbs (folderPath +:+ "/") in
  let before :=
    [Logged all (MsgRemovingFolder (folderPath +:+ "/"));
     Logged debug (MsgRemovingFolderDir (join names +:+ "/"));
     Called (removeDir (join names +:+ "/"))] in
  let rest := leaving path w2 in
  removeFolder folderPath w =
    match reply with
    | Ok _ => (result rest, world rest, before ++ trace rest)
    | Fail e =>
        if decide (code e = Some FileNotFoundOrNoAccess)
        then (result rest, world rest,
              before ++ Logged debug MsgFolderDoesNotExist :: trace rest)
        else (Rejected e, w2, before)
    end.
Proof.
  intros Hfolders Hremove. cbv zeta.
  unfold removeFolder, leaving. cbv zeta. rewrite Hfolders.
  unfold mbind, Run_bind, bind, log, result, world, trace. simpl.
  rewrite removeFolder_try_run, Hremove.
  destruct reply as [body'|e];
    [|destruct (decide (code e = Some FileNotFoundOrNoAccess))]; simpl; try done;
    destruct (for_of (seq 0 (length names)) (λ _, call cdup) w2) as [[[[]|e'|] w3] t3];
    simpl; done.
Qed.

(** C4: every deletion of the orchestrator, at any place of the delete
    lists. When phase 4 has handled the entries before a file entry, has
    entered the folders of that entry and [client.remove] fails, then with
    the code [FileNotFoundOrNoAccess] [removeFile] catches the error, logs
    that the file does not exist and ends as it always does (it navigates
    back and logs the completion), and once that is done the phase goes on
    with the entries that follow; with any other code, or none, [removeFile]
    is rejected with that very error right after the call, and so is the
    phase: no later entry is handled. The same holds for phase 5,
    [removeFolder] and [client.removeDir]. *)
Theorem delete_tolerates_not_found_only (diffs : DiffResult)
    (earlier later : list FileRecord) (item : FileRecord)
    (w0 w w1 w2 : World) (t0 : list Event) (e : Thrown) :
  (∀ f,
     of_type type_file (delete diffs) = earlier ++ item :: later →
     for_of earlier (λ file, removeFile (name file)) w0 = (Fulfilled tt, w, t0) →
     file (getFileBreadcrumbs (name item)) = Some f →
     entered (getFileBreadcrumbs (name item)) w w1 →
     perform w1 (remove f) = (w2, Fail e) →
     let path := getFileBreadcrumbs (name item) in
     let before :=
       Logged all (MsgRemoving (name item))
       :: entering path ++ [Logged debug (MsgRemovingFile f); Called (remove f)] in
     let rest := leaving path w2 in
     let next := for_of later (λ file, removeFile (name file)) (world rest) in
     (code e = Some FileNotFoundOrNoAccess →
        removeFile (name item) w
        = (result rest, world rest, before ++ Logged info MsgFileDoesNotExist :: trace rest)
        ∧ (result rest = Fulfilled tt →
           deleteOldFiles diffs w0
           = (result next, world next,
              t0 ++ (before ++ Logged info MsgFileDoesNotExist :: trace rest)
              ++ trace next)))
     ∧ (code e ≠ Some FileNotFoundOrNoAccess →
        removeFile (name item) w = (Rejected e, w2, before)
        ∧ deleteOldFiles diffs w0 = (Rejected e, w2, t0 ++ before)))
  ∧ (∀ names,
       of_type type_folder (delete diffs) = earlier ++ item :: later →
       for_of earlier (λ file, removeFolder (name file)) w0 = (Fulfilled tt, w, t0) →
       folders (getFileBreadcrumbs (name item +:+ "/")) = Some names →
       perform w (removeDir (join names +:+ "/")) = (w2, Fail e) →
       let path := getFileBreadcrumbs (name item +:+ "/") in
       let before :=
         [Logged all (MsgRemovingFolder (name item +:+ "/"));
          Logged debug (MsgRemovingFolderDir (join names +:+ "/"));
          Called (removeDir (join names +:+ "/"))] in
       let rest := leaving path w2 in
       let next := for_of later (λ file, removeFolder (name file)) (world rest) in
       (code e = Some FileNotFoundOrNoAccess →
          removeFolder (name item) w
          = (result rest, world rest,
             before ++ Logged debug MsgFolderDoesNotExist :: trace rest)
          ∧ (result rest = Fulfilled tt →
             deleteOldFolders diffs w0
             = (result next, world next,
                t0 ++ (before ++ Logged debug MsgFolderDoesNotExist :: trace rest)
                ++ trace next)))
       ∧ (code e ≠ Some FileNotFoundOrNoAccess →
          removeFolder (name item) w = (Rejected e, w2, before)
          ∧ deleteOldFolders diffs w0 = (Rejected e, w2, t0 ++ before))).
Proof.
  split.
  - intros f Hlist Hearlier Hfile Hentered Hremove path before rest next.
    pose proof (removeFile_run _ _ _ _ _ _ Hfile Hentered Hremove) as Hrun.
    cbv zeta in Hrun. fold path in Hrun. fold rest in Hrun.
    unfold deleteOldFiles, of_type in *. rewrite Hlist.
    rewrite (for_of_app _ _ _ _ _ _ Hearlier).
    split; intros Hcode.
    + rewrite decide_True in Hrun by done. split; [done|]. intros Hrest.
      destruct rest as [[r w3] t3] eqn:Hleft. unfold result in Hrest. simpl in Hrest.
      subst r. unfold world, trace in Hrun. simpl in Hrun.
      by rewrite (for_of_fulfilled item later (λ file, removeFile (name file))
                    _ _ _ Hrun).
    + rewrite decide_False in Hrun by done. split; [done|].
      by rewrite (for_of_rejected item later (λ file, removeFile (name file))
                    _ _ _ _ Hrun).
  - intros names Hlist Hearlier Hfolders Hremove path before rest next.
    pose proof (removeFolder_run _ _ _ _ _ Hfolders Hremove) as Hrun.
    cbv zeta in Hrun. fold path in Hrun. fold rest in Hrun.
    unfold deleteOldFolders, of_type in *. rewrite Hlist.
    rewrite (for_of_app _ _ _ _ _ _ Hearlier).
    split; intros Hcode.
    + rewrite decide_True in Hrun by done. split; [done|]. intros Hrest.
      destruct rest as [[r w3] t3] eqn:Hleft. unfold result in Hrest. simpl in Hrest.
      subst r. unfold world, trace in Hrun. simpl in Hrun.
      by rewrite (for_of_fulfilled item later (λ file, removeFolder (name file))
                    _ _ _ Hrun).
    + rewrite decide_False in Hrun by done. split; [done|].
      by rewrite (for_of_rejected item later (λ file, removeFolder (name file))
                    _ _ _ _ Hrun).
Qed.

End bootstrap_and_deletions.

Lemma bootstrap_with_empty_inventory_witness :
  ∃ serverFiles w1 t1 rest,
    fetchServerFiles (H:=Demo.platform) Demo.args [Fail (FTPError 550 "No such file")]
    = (Fulfilled serverFiles, w1, t1)
    ∧ data serverFiles = []
    ∧ trace (session (H:=Demo.platform) Demo.args Demo.inventory
               [Fail (FTPError 550 "No such file")])
      = t1 ++ GetDiffs Demo.inventory serverFiles :: rest
    ∧ (dangerous_clean_slate Demo.args = true → calls_of t1 = [clearWorkingDir])
    ∧ (∀ diffs,
         getDiffs (Platform:=Demo.platform) Demo.inventory serverFiles = inl diffs →
         ∃ returned,
           uploadBlock (H:=Demo.platform) Demo.args diffs w1
           = (Fulfilled returned,
              world (session (H:=Demo.platform) Demo.args Demo.inventory
                       [Fail (FTPError 550 "No such file")]),
              rest)
           ∧ result (session (H:=Demo.platform) Demo.args Demo.inventory
                       [Fail (FTPError 550 "No such file")])
             = Fulfilled (returned, bytes_sum (sizeUpload diffs) (sizeReplace diffs))
           ∧ calls_of (trace (session (H:=Demo.platform) Demo.args Demo.inventory
                                [Fail (FTPError 550 "No such file")]))
             = calls_of t1
               ++ calls_of (trace (syncChanges (H:=Demo.platform) Demo.args diffs w1))).
Proof.
  apply (bootstrap_with_empty_inventory (H:=Demo.platform) Demo.args Demo.inventory
           [Fail (FTPError 550 "No such file")]).
  right. left. exists [], (FTPError 550 "No such file"). reflexivity.
Defined.

Lemma delete_tolerates_not_found_only_witness :
  deleteOldFiles (H:=Demo.platform) Demo.someChanges
    [Ok ""; Fail (FTPError 550 "No such file")]
  = (Fulfilled tt, [],
     [Logged all (MsgRemoving "old/c.txt");
      Logged debug (MsgChangingDir "old"); Called (ensureDir "old");
      Logged debug MsgDirChanged; Logged debug (MsgRemovingFile "c.txt");
      Called (remove "c.txt"); Logged info MsgFileDoesNotExist;
      Called cdup; Logged info MsgCompleted])
  ∧ deleteOldFolders (H:=Demo.platform) Demo.someChanges
      [Fail (FTPError 451 "Local error")]
    = (Rejected (FTPError 451 "Local error"), [],
       [Logged all (MsgRemovingFolder "old/");
        Logged debug (MsgRemovingFolderDir "old/");
        Called (removeDir "old/")]).
Proof.
  split.
  - destruct (delete_tolerates_not_found_only (H:=Demo.platform)
                Demo.someChanges [] [] (Demo.fileRecord "old/c.txt")
                [Ok ""; Fail (FTPError 550 "No such file")]
                [Ok ""; Fail (FTPError 550 "No such file")]
                [Fail (FTPError 550 "No such file")] [] []
                (FTPError 550 "No such file")) as [Hfiles _].
    destruct (Hfiles "c.txt") as [Htolerated _];
      [reflexivity|reflexivity|reflexivity|exists EmptyString; reflexivity
      |reflexivity|].
    destruct Htolerated as [_ Hphase]; [reflexivity|].
    apply Hphase. reflexivity.
  - destruct (delete_tolerates_not_found_only (H:=Demo.platform)
                Demo.someChanges [] [] (Demo.folderRecord "old")
                [Fail (FTPError 451 "Local error")]
                [Fail (FTPError 451 "Local error")]
                [] [] [] (FTPError 451 "Local error")) as [_ Hfolders].
    destruct (Hfolders ["old"]) as [_ Hfatal];
      [reflexivity|reflexivity|reflexivity|reflexivity|].
    destruct Hfatal as [_ Hphase]; [vm_compute; discriminate|].
    apply Hphase.
Defined.

(** ** The local state file *)

Section local_state.
Context `{Platform}.

Lemma emits_await {A} (p : Promise A) P : emits_only (await p) P.
Proof. intros w ev Hev. by apply elem_of_nil in Hev. Qed.

Lemma emits_now P : emits_only now P.
Proof. intros w ev Hev. by apply elem_of_nil in Hev. Qed.

Lemma emits_console_warn (text : string) (P : Event → Prop) :
  P (ConsoleWarn text) → emits_only (console_warn text) P.
Proof. intros HP w ev Hev. apply list_elem_of_singleton in Hev. by subst. Qed.

(** The inventory builder calls neither the client nor [fs.writeFileSync]. *)
Lemma collect_local (files : list Stats.t) (records : list FileRecord) :
  emits_only (collect files records) (λ ev, ∀ c, ev ≠ Called c).
Proof.
  revert records. induction files as [|stat files IH]; intros records; simpl.
  - apply emits_ret.
  - repeat case_match; auto.
    + apply emits_bind; [apply emits_await|auto].
    + apply emits_bind; [by apply emits_console_warn|auto].
Qed.

Lemma getLocalFiles_local (args : IFtpDeployArguments) :
  emits_only (getLocalFiles args) (λ ev, ∀ c, ev ≠ Called c).
Proof.
  unfold getLocalFiles.
  apply emits_bind; [apply emits_await|intros files].
  apply emits_bind; [apply collect_local|intros records].
  apply emits_bind; [apply emits_now|intros generated]. apply emits_ret.
Qed.

Lemma no_calls (t : list Event) : (∀ ev, ev ∈ t → ∀ c, ev ≠ Called c) → calls_of t = [].
Proof.
  intros Hnone. destruct (calls_of t) as [|c cs] eqn:Hcalls; [done|].
  assert (Hin : c ∈ calls_of t) by (rewrite Hcalls; left).
  apply elem_of_calls_of in Hin. by destruct (Hnone _ Hin c).
Qed.

(** C10: once the inventory is built, the first call of [deploy] writes
    its serialization to the local file [./<state-name>]; the connection
    and everything after it come later in the trace, so the file is
    written whatever the server replies. *)
Theorem state_file_written_before_connecting (args : IFtpDeployArguments)
    (w w1 : World) (localFiles : IFileList) (t1 : list Event) :
  getLocalFiles args w = (Fulfilled localFiles, w1, t1) →
  ∃ before after,
    trace (deploy args w)
    = before
      ++ Called (writeFileSync ("./" +:+ state_name args) (JSON_stringify localFiles))
      :: after
    ∧ calls_of before = []
    ∧ (∀ w2 body,
         perform w1 (writeFileSync ("./" +:+ state_name args) (JSON_stringify localFiles))
         = (w2, Ok body) →
         head (calls_of after)
         = Some (access (server args) (username args) (password args))).
Proof.
  intros Hlocal.
  exists ([Logged all MsgRule; Logged all MsgWelcome; Logged all MsgRule;
           Logged all MsgSupport; Logged all MsgStar] ++ t1).
  pose proof (getLocalFiles_local args w) as Hnone. unfold trace in Hnone.
  rewrite Hlocal in Hnone. simpl in Hnone.
  unfold deploy, mbind, Run_bind, bind, log, trace. simpl. rewrite Hlocal.
  unfold call at 1.
  destruct (perform w1 (writeFileSync _ _)) as [w2 [body|e]] eqn:Hwrite; simpl.
  - destruct (connected args localFiles w2) as [[r3 w3] t3] eqn:Hconnected.
    assert (Haccess : head (calls_of t3)
                      = Some (access (server args) (username args) (password args))).
    { unfold connected, try_catch, mbind, Run_bind, bind, call in Hconnected.
      destruct (perform w2 (access _ _ _)) as [w' [body'|e']].
      - destruct (session args localFiles w') as [[[outcome|e''|] w''] t''];
          simpl in Hconnected; by simplify_eq.
      - simpl in Hconnected. by simplify_eq. }
    assert (Hfirst : ∀ later, head (calls_of (t3 ++ later))
              = Some (access (server args) (username args) (password args))).
    { intros later. rewrite calls_of_app. by destruct (calls_of t3). }
    destruct r3 as [[[] total]|e3|]; simpl;
      [|destruct (call close w3) as [[[[]|e4|] w4] t4]; simpl;
        [destruct (request (uploadSpeed total) w4) as [[[speed|e5|] w5] t5]; simpl|..]
       |..];
      (eexists; split; [reflexivity|]; split; [by apply no_calls|]);
      intros ? ? _; first [apply Hfirst | apply Haccess].
  - eexists. split; [done|]. split; [by apply no_calls|]. by intros ? ? [=].
Qed.

End local_state.

(** The login is refused: the state file has been written all the same. *)
Lemma state_file_written_before_connecting_witness :
  ∃ before after,
    trace (deploy (H:=Demo.platform) Demo.args Demo.refusedLogin)
    = before
      ++ Called (writeFileSync "./.ftp-deploy-sync-state.json" "{}")
      :: after
    ∧ calls_of before = []
    ∧ (∀ w2 body,
         perform (Platform:=Demo.platform) Demo.refusedLogin
           (writeFileSync "./.ftp-deploy-sync-state.json" "{}") = (w2, Ok body) →
         head (calls_of after) = Some (access "ftp.example.com" "user" "secret")).
Proof.
  apply (state_file_written_before_connecting (H:=Demo.platform) Demo.args
           Demo.refusedLogin Demo.refusedLogin
           {| description := "DO NOT DELETE THIS FILE"; version := "1.0.0";
              generatedTime := 0;
              data := [Demo.folderRecord "docs";
                       {| type := type_file; name := "a.txt"; size := Some 10%Z;
                          hash := Some "0123456789" |}] |} []).
  reflexivity.
Defined.


(** * Further properties of the code *)

(** ** Paths *)

Lemma append_empty_r (s : string) : s +:+ EmptyString = s.
Proof. induction s as [|c s IH]; [done|]. change (String c (s +:+ "") = String c s). by rewrite IH. Qed.

Lemma append_assoc (s1 s2 s3 : string) : (s1 +:+ s2) +:+ s3 = s1 +:+ (s2 +:+ s3).
Proof.
  induction s1 as [|c s1 IH]; [done|].
  change (String c ((s1 +:+ s2) +:+ s3) = String c (s1 +:+ (s2 +:+ s3))). by rewrite IH.
Qed.

Lemma filter_all {A} (P : A → Prop) `{∀ x, Decision (P x)} (l : list A) :
  Forall P l → filter P l = l.
Proof.
  induction 1 as [|x l Hx _ IH]; [done|]. rewrite filter_cons_True by done. by rewrite IH.
Qed.

Lemma split_slash_cons (s : string) : ∃ piece pieces, split_slash s = piece :: pieces.
Proof.
  induction s as [|c s (piece & pieces & IH)]; simpl; [by eexists _, _|].
  destruct (Ascii.eqb c "/"); [by eexists _, _|]. rewrite IH. by eexists _, _.
Qed.

Lemma join_cons (piece : string) (pieces : list string) :
  pieces ≠ [] → join (piece :: pieces) = piece +:+ "/" +:+ join pieces.
Proof. by destruct pieces. Qed.

Lemma split_slash_sound (s : string) :
  join (split_slash s) = s ∧ Forall (λ piece, has_slash piece = false) (split_slash s).
Proof.
  induction s as [|c s [IHjoin IHfree]]; [by split; [|repeat constructor]|].
  simpl. destruct (split_slash_cons s) as (piece & pieces & Hsplit).
  rewrite Hsplit in *.
  destruct (Ascii.eqb c "/") eqn:Hc.
  - apply Ascii.eqb_eq in Hc as ->. split; [|by constructor].
    rewrite join_cons by done. by rewrite IHjoin.
  - apply Forall_cons in IHfree as [Hpiece Hpieces]. split.
    + destruct pieces as [|piece' pieces]; [by simpl in *; subst|].
      rewrite join_cons in * by done. by rewrite <-IHjoin.
    + constructor; [simpl; by rewrite Hc|done].
Qed.

Lemma split_slash_name (piece rest : string) :
  has_slash piece = false →
  split_slash (piece +:+ "/" +:+ rest) = piece :: split_slash rest.
Proof.
  induction piece as [|c piece IH]; [done|]. simpl.
  intros [Hc Hpiece]%orb_false_elim.
  change (String c piece +:+ "/" +:+ rest) with (String c (piece +:+ "/" +:+ rest)).
  simpl. by rewrite Hc, IH.
Qed.

Lemma split_slash_one (piece : string) :
  has_slash piece = false → split_slash piece = [piece].
Proof.
  induction piece as [|c piece IH]; [done|]. simpl.
  intros [Hc Hpiece]%orb_false_elim. by rewrite Hc, IH.
Qed.

(** Names joined with the separator split back into the same names. *)
Lemma split_slash_join (names : list string) :
  names ≠ [] → Forall is_name names → split_slash (join names) = names.
Proof.
  induction names as [|piece names IH]; [done|]. intros _ [[_ Hpiece] Hnames]%Forall_cons.
  destruct names as [|piece' names]; [by apply split_slash_one|].
  rewrite join_cons by done. rewrite split_slash_name by done. by rewrite IH.
Qed.

Lemma components_join (names : list string) :
  names ≠ [] → Forall is_name names → components (join names) = names.
Proof.
  intros Hnames Hall. unfold components. rewrite split_slash_join by done.
  induction Hall as [|piece names [Hpiece _] _ IH]; [done|].
  rewrite filter_cons_True by done. f_equal.
  destruct names; [done|]. by apply IH.
Qed.

Lemma split_slash_trailing (s : string) :
  split_slash (s +:+ "/") = split_slash s ++ [EmptyString].
Proof.
  induction s as [|c s IH]; [done|].
  change (String c s +:+ "/") with (String c (s +:+ "/")). simpl. rewrite IH.
  destruct (Ascii.eqb c "/"); [done|].
  destruct (split_slash_cons s) as (piece & pieces & ->). done.
Qed.

Lemma components_names (path : string) : Forall is_name (components path).
Proof.
  unfold components. apply Forall_forall. intros piece [Hpiece Hin]%list_elem_of_filter.
  split; [done|].
  by apply (proj1 (Forall_forall _ _) (proj2 (split_slash_sound path)) piece).
Qed.

(** The breadcrumbs in terms of the pieces of the path: the last piece is
    the file, the names among the others are the folders. *)
Lemma getFileBreadcrumbs_pieces (fullPath : string) (pieces : list string) (final : string) :
  split_slash fullPath = pieces ++ [final] →
  getFileBreadcrumbs fullPath
  = {| folders := match filter (λ piece, piece ≠ EmptyString) pieces with
                  | [] => None
                  | names => Some names
                  end;
       file := if decide (final = EmptyString) then None else Some final |}.
Proof.
  intros Hsplit. unfold getFileBreadcrumbs. cbv zeta.
  rewrite Hsplit, last_snoc, removelast_last. simpl.
  by destruct (filter _ pieces).
Qed.

Lemma split_slash_snoc (s : string) : ∃ pieces final, split_slash s = pieces ++ [final].
Proof.
  destruct (split_slash_cons s) as (piece & pieces & Hsplit). rewrite Hsplit.
  clear Hsplit. revert piece.
  induction pieces as [|piece' pieces IH]; intros piece; [by exists [], piece|].
  destruct (IH piece') as (init & final & ->). by exists (piece :: init), final.
Qed.

Lemma breadcrumbs_names (fullPath : string) :
  (∀ names, folders (getFileBreadcrumbs fullPath) = Some names →
            names ≠ [] ∧ Forall is_name names)
  ∧ (∀ f, file (getFileBreadcrumbs fullPath) = Some f → is_name f).
Proof.
  destruct (split_slash_snoc fullPath) as (pieces & final & Hsplit).
  rewrite (getFileBreadcrumbs_pieces _ _ _ Hsplit). simpl.
  pose proof (proj2 (split_slash_sound fullPath)) as Hfree.
  rewrite Hsplit in Hfree. apply Forall_app in Hfree as [Hpieces Hfinal].
  split.
  - intros names Hnames.
    assert (names = filter (λ piece, piece ≠ EmptyString) pieces ∧ names ≠ []) as [-> ?]
      by (destruct (filter _ pieces); by simplify_eq).
    split; [done|]. apply Forall_forall.
    intros piece [Hpiece Hin]%list_elem_of_filter. split; [done|].
    by apply (proj1 (Forall_forall _ _) Hpieces).
  - intros f Hf. case_decide; simplify_eq. split; [done|].
    exact (Forall_inv Hfinal).
Qed.

(** X1: splitting a path at the separators and joining the pieces with the
    separator gives the path back, and no piece holds a separator. *)
Theorem join_split_slash (s : string) :
  join (split_slash s) = s ∧ Forall (λ piece, has_slash piece = false) (split_slash s).
Proof. apply split_slash_sound. Qed.

(** X2: the folders of the breadcrumbs, when present, are a non-empty list
    of names, and the file, when present, is a name: none of them is empty
    and none holds a separator. *)
Theorem breadcrumbs_are_names (fullPath : string) :
  (∀ names, folders (getFileBreadcrumbs fullPath) = Some names →
            names ≠ [] ∧ Forall is_name names)
  ∧ (∀ f, file (getFileBreadcrumbs fullPath) = Some f → is_name f).
Proof. apply breadcrumbs_names. Qed.

Lemma breadcrumbs_are_names_witness :
  (["a"; "b"] ≠ [] ∧ Forall is_name ["a"; "b"]) ∧ is_name "c.txt".
Proof.
  split.
  - apply (proj1 (breadcrumbs_are_names "/a//b/c.txt")). reflexivity.
  - apply (proj2 (breadcrumbs_are_names "/a//b/c.txt")). reflexivity.
Defined.

(** X3: for a path with no empty piece (no leading, trailing or doubled
    separator), the breadcrumbs lose nothing: there is a file, and the
    folders followed by the file, joined with the separator, are the path. *)
Theorem breadcrumbs_rejoin (fullPath : string) :
  EmptyString ∉ split_slash fullPath →
  ∃ f, file (getFileBreadcrumbs fullPath) = Some f
       ∧ join (default [] (folders (getFileBreadcrumbs fullPath)) ++ [f]) = fullPath.
Proof.
  intros Hnone. destruct (split_slash_snoc fullPath) as (pieces & final & Hsplit).
  rewrite (getFileBreadcrumbs_pieces _ _ _ Hsplit). simpl.
  rewrite Hsplit in Hnone.
  assert (Hfinal : final ≠ EmptyString).
  { intros ->. apply Hnone, elem_of_app. right. apply list_elem_of_here. }
  assert (Hkept : filter (λ piece, piece ≠ EmptyString) pieces = pieces).
  { apply filter_all. apply Forall_forall. intros piece Hin ->.
    apply Hnone, elem_of_app. by left. }
  exists final. rewrite decide_False by done. split; [done|].
  rewrite Hkept. transitivity (join (pieces ++ [final])); [by destruct pieces|].
  rewrite <-Hsplit. apply split_slash_sound.
Qed.

Lemma breadcrumbs_rejoin_witness :
  ∃ f, file (getFileBreadcrumbs "folder/otherfolder/file.txt") = Some f
       ∧ join (default [] (folders (getFileBreadcrumbs "folder/otherfolder/file.txt")) ++ [f])
         = "folder/otherfolder/file.txt".
Proof.
  apply breadcrumbs_rejoin. vm_compute.
  intros Hin. repeat (apply elem_of_cons in Hin as [Hin|Hin]; [discriminate|]).
  by apply elem_of_nil in Hin.
Defined.

(** X4: for a path that ends with the separator, as [createFolder] and
    [removeFolder] build it, the breadcrumbs have no file, and their folders
    are all the names along the path, the last one included. *)
Theorem breadcrumbs_of_folder (folderPath : string) :
  file (getFileBreadcrumbs (folderPath +:+ "/")) = None
  ∧ folders (getFileBreadcrumbs (folderPath +:+ "/"))
    = match components folderPath with
      | [] => None
      | names => Some names
      end.
Proof.
  rewrite (getFileBreadcrumbs_pieces _ _ _ (split_slash_trailing folderPath)). done.
Qed.


(** ** Navigation *)

Section navigation.
Context `{Platform}.

Lemma net_descent_app (calls1 calls2 : list Call) :
  net_descent (calls1 ++ calls2) = (net_descent calls1 + net_descent calls2)%Z.
Proof. induction calls1 as [|c calls1 IH]; simpl; [done|]. rewrite IH. lia. Qed.

Lemma net_descent_upDir (n : nat) : net_descent (replicate n cdup) = (- Z.of_nat n)%Z.
Proof. induction n as [|n IH]; simpl; [done|]. rewrite IH. lia. Qed.

(** Entering the folders of the breadcrumbs and going up once per folder
    ends where it began, whatever is done in between without moving. *)
Lemma round_trip_descent (fullPath : string) (between : list Call) :
  net_descent between = 0%Z →
  net_descent (cd_calls (getFileBreadcrumbs fullPath) ++ between
               ++ upDir_calls (length <$> folders (getFileBreadcrumbs fullPath))) = 0%Z.
Proof.
  intros Hbetween. rewrite !net_descent_app, Hbetween. unfold cd_calls.
  destruct (folders (getFileBreadcrumbs fullPath)) as [names|] eqn:Hfolders; simpl; [|done].
  destruct (proj1 (breadcrumbs_names fullPath) names Hfolders) as [Hnames Hall].
  rewrite components_join by done. rewrite net_descent_upDir. lia.
Qed.

(** X5: an upload, a folder creation or a file removal that is fulfilled has
    gone up, with [cdup], exactly as many directories as its [ensureDir]
    went down: the working directory of the session is back where the
    operation found it. *)
Theorem navigation_returns (path : string) (w : World) :
  (result (uploadFile path w) = Fulfilled tt →
   net_descent (calls_of (trace (uploadFile path w))) = 0%Z)
  ∧ (result (createFolder path w) = Fulfilled tt →
     net_descent (calls_of (trace (createFolder path w))) = 0%Z)
  ∧ (result (removeFile path w) = Fulfilled tt →
     net_descent (calls_of (trace (removeFile path w))) = 0%Z).
Proof.
  split; [|split]; intros Hdone.
  - rewrite (issues_all _ _ (uploadFile_issues path) w tt Hdone).
    apply round_trip_descent. by destruct (file _).
  - rewrite (issues_all _ _ (createFolder_issues path) w tt Hdone).
    apply (round_trip_descent (path +:+ "/") []). done.
  - rewrite (issues_all _ _ (removeFile_issues path) w tt Hdone).
    apply round_trip_descent. by destruct (file _).
Qed.

(** X6: when the server refuses the transfer of a file that lies in
    folders, [uploadFile] rejects at once with that error: no [cdup]
    follows, and the working directory stays as deep as the file's folders
    are many. *)
Theorem failed_upload_stays_below (filePath f : string) (names : list string)
    (w w1 w2 : World) (body : string) (e : Thrown) :
  folders (getFileBreadcrumbs filePath) = Some names →
  file (getFileBreadcrumbs filePath) = Some f →
  perform w (ensureDir (join names)) = (w1, Ok body) →
  perform w1 (uploadFrom filePath f) = (w2, Fail e) →
  result (uploadFile filePath w) = Rejected e
  ∧ calls_of (trace (uploadFile filePath w)) = [ensureDir (join names); uploadFrom filePath f]
  ∧ net_descent (calls_of (trace (uploadFile filePath w))) = Z.of_nat (length names).
Proof.
  intros Hfolders Hfile Hcd Hup.
  assert (Hrun : uploadFile filePath w
                 = (Rejected e, w2,
                    [Logged all (MsgUploading filePath);
                     Logged debug (MsgChangingDir (join names));
                     Called (ensureDir (join names)); Logged debug MsgDirChanged;
                     Logged debug MsgUploadStarted; Called (uploadFrom filePath f)])).
  { unfold uploadFile, mbind, Run_bind, bind, call, log. cbv zeta.
    rewrite Hfolders, Hfile. simpl. rewrite Hcd. simpl. by rewrite Hup. }
  rewrite Hrun. unfold result, trace. simpl. repeat split.
  destruct (proj1 (breadcrumbs_names filePath) names Hfolders) as [Hnames Hall].
  rewrite components_join by done. lia.
Qed.

End navigation.

Lemma navigation_returns_witness :
  net_descent (calls_of (trace (uploadFile (H:=Demo.platform) "docs/img/b.png" []))) = 0%Z.
Proof.
  apply (proj1 (navigation_returns (H:=Demo.platform) "docs/img/b.png" [])). reflexivity.
Defined.

Lemma failed_upload_stays_below_witness :
  result (uploadFile (H:=Demo.platform) "docs/img/b.png"
            [Ok ""; Fail (FTPError 452 "Insufficient storage")])
  = Rejected (FTPError 452 "Insufficient storage")
  ∧ calls_of (trace (uploadFile (H:=Demo.platform) "docs/img/b.png"
                       [Ok ""; Fail (FTPError 452 "Insufficient storage")]))
    = [ensureDir (join ["docs"; "img"]); uploadFrom "docs/img/b.png" "b.png"]
  ∧ net_descent (calls_of (trace (uploadFile (H:=Demo.platform) "docs/img/b.png"
                                    [Ok ""; Fail (FTPError 452 "Insufficient storage")])))
    = Z.of_nat (length ["docs"; "img"]).
Proof.
  apply (failed_upload_stays_below (H:=Demo.platform) "docs/img/b.png" "b.png"
           ["docs"; "img"] [Ok ""; Fail (FTPError 452 "Insufficient storage")]
           [Fail (FTPError 452 "Insufficient storage")] [] ""
           (FTPError 452 "Insufficient storage")); reflexivity.
Defined.

(** ** The content hasher, settled *)

Section hashing.
Context `{Platform}.

Lemma foldl_append (fed : string) (chunks : list string) :
  foldl String.append fed chunks = fed +:+ content chunks.
Proof.
  revert fed. induction chunks as [|chunk chunks IH]; intros fed; simpl.
  - by rewrite append_empty_r.
  - by rewrite IH, append_assoc.
Qed.

Lemma listen_fulfilled (algorithm fed h : string) (events : list StreamEvent) :
  listen algorithm fed events = Fulfilled h →
  ∃ chunks later,
    events = (on_data <$> chunks) ++ on_end :: later
    ∧ h = digest_hex algorithm (fed +:+ content chunks).
Proof.
  revert fed. induction events as [|[chunk| |e] events IH]; intros fed; simpl; try done.
  - intros (chunks & later & -> & ->)%IH.
    exists (chunk :: chunks), later. by rewrite append_assoc.
  - intros [= <-]. exists [], events. by rewrite append_empty_r.
Qed.

Lemma listen_never_rejects (algorithm fed : string) (events : list StreamEvent) (e : Thrown) :
  listen algorithm fed events ≠ Rejected e.
Proof. revert fed. induction events as [|[chunk| |e'] events IH]; intros fed; simpl; auto. Qed.

(** X7: [fileHash] is fulfilled exactly when the platform provides the
    algorithm and the stream of the file reaches its end before any error;
    the value is then the digest of all the bytes delivered before the end,
    however they were cut into chunks. *)
Theorem fileHash_fulfilled_iff (filename algorithm h : string) :
  fileHash filename algorithm = Fulfilled h
  ↔ createHash algorithm = None
    ∧ ∃ chunks later,
        createReadStream filename = Emits ((on_data <$> chunks) ++ on_end :: later)
        ∧ h = digest_hex algorithm (content chunks).
Proof.
  unfold fileHash. split.
  - destruct (createHash algorithm) as [refused|]; [done|].
    destruct (createReadStream filename) as [thrown|events]; [done|].
    intros (chunks & later & -> & ->)%listen_fulfilled. split; [done|].
    by exists chunks, later.
  - intros (-> & chunks & later & -> & ->). by rewrite listen_to_the_end, foldl_append.
Qed.

(** X8: the promise of [fileHash] is rejected in two cases only: when
    [crypto.createHash] throws, with what it threw; and, with a hash object
    in hand, when [fs.createReadStream] throws on the spot, then with the
    fixed reason "calc fail" whatever was thrown. A failure of the stream
    later on never rejects it. *)
Theorem fileHash_rejected_iff (filename algorithm : string) (e : Thrown) :
  fileHash filename algorithm = Rejected e
  ↔ createHash algorithm = Some e
    ∨ (createHash algorithm = None
       ∧ (∃ thrown, createReadStream filename = CreateThrows thrown)
       ∧ e = Reason "calc fail").
Proof.
  unfold fileHash. split.
  - destruct (createHash algorithm) as [refused|]; [intros [= ->]; by left|].
    destruct (createReadStream filename) as [thrown|events].
    + intros [= <-]. right. split; [done|]. split; [by eexists|done].
    + intros Hrejected. by apply listen_never_rejects in Hrejected.
  - intros [->|(-> & [thrown ->] & ->)]; done.
Qed.

End hashing.

Lemma fileHash_rejected_iff_witness :
  fileHash (H:=Demo.platform) "a.txt" "whirlpool"
  = Rejected (JsError "Digest method not supported").
Proof.
  apply (fileHash_rejected_iff (H:=Demo.platform) "a.txt" "whirlpool"
           (JsError "Digest method not supported")).
  left. reflexivity.
Defined.

Lemma fileHash_fulfilled_iff_witness :
  fileHash (H:=Demo.platform) "a.txt" "sha256" = Fulfilled "0123456789".
Proof.
  apply (fileHash_fulfilled_iff (H:=Demo.platform) "a.txt" "sha256" "0123456789").
  split; [reflexivity|]. exists ["0123"; "456789"], []. split; reflexivity.
Defined.

(** ** The inventory *)

Section inventory.
Context `{Platform}.

Lemma recorded_further (stat : Stats.t) (files : list Stats.t) (item : FileRecord) :
  recorded files item → recorded (stat :: files) item.
Proof. intros (stat' & Hin & Hrest). exists stat'. split; [by right|done]. Qed.

Lemma collect_run (files : list Stats.t) (records out : list FileRecord)
    (w w1 : World) (t1 : list Event) :
  collect files records w = (Fulfilled out, w1, t1) →
  ∃ new,
    out = records ++ new
    ∧ name <$> new = Stats.path <$> filter (λ stat, listed stat = true) files
    ∧ Forall (recorded files) new
    ∧ w1 = w
    ∧ t1 = (λ _, ConsoleWarn "Currently unable to handle symbolic links")
           <$> filter (λ stat, warned stat = true) files.
Proof.
  revert records t1. induction files as [|stat files IH]; intros records t1; simpl.
  - intros [= <- <- <-]. exists []. by rewrite app_nil_r.
  - destruct (Stats.isDirectory stat) eqn:Hdir.
    { intros (new & -> & Hnames & Hall & -> & ->)%IH.
      eexists (_ :: new). rewrite <-app_assoc. split; [done|].
      rewrite filter_cons_True by (unfold listed; by rewrite Hdir).
      rewrite filter_cons_False by (unfold warned; by rewrite Hdir).
      rewrite !fmap_cons, Hnames. split; [done|]. split; [|done].
      constructor; [|by eapply Forall_impl; [|apply recorded_further]].
      exists stat. split; [left|]. by split; [|left]. }
    destruct (Stats.isFile stat) eqn:Hfile.
    { unfold mbind, Run_bind, bind, await.
      destruct (fileHash (Stats.path stat) "sha256") as [h|e|] eqn:Hhash; [|done..].
      destruct (collect files _ w) as [[r w2] t2] eqn:Hrest. simpl.
      intros [= -> -> <-]. apply IH in Hrest as (new & -> & Hnames & Hall & -> & ->).
      eexists (_ :: new). rewrite <-app_assoc. split; [done|].
      rewrite filter_cons_True by (unfold listed; by rewrite Hdir, Hfile).
      rewrite filter_cons_False by (unfold warned; by rewrite Hdir, Hfile).
      rewrite !fmap_cons, Hnames. split; [done|]. split; [|done].
      constructor; [|by eapply Forall_impl; [|apply recorded_further]].
      exists stat. split; [left|]. split; [done|]. right. simpl.
      repeat split; try done. by exists h. }
    rewrite filter_cons_False by (unfold listed; by rewrite Hdir, Hfile).
    destruct (Stats.isSymbolicLink stat) eqn:Hlink.
    + unfold mbind, Run_bind, bind, console_warn.
      destruct (collect files records w) as [[r w2] t2] eqn:Hrest. simpl.
      intros [= -> -> <-]. apply IH in Hrest as (new & -> & Hnames & Hall & -> & ->).
      exists new. rewrite filter_cons_True by (unfold warned; by rewrite Hdir, Hfile, Hlink).
      repeat split; try done. by eapply Forall_impl; [|apply recorded_further].
    + intros (new & -> & Hnames & Hall & -> & ->)%IH.
      exists new. rewrite filter_cons_False by (unfold warned; by rewrite Hdir, Hfile, Hlink).
      repeat split; try done. by eapply Forall_impl; [|apply recorded_further].
Qed.

(** X9: a fulfilled inventory lists, in the order of the walk, the paths of
    the directories and regular files the walker returned and nothing else;
    a folder has neither size nor hash, a file has the size of its metadata
    and the digest [fileHash] gave for its path; every symbolic link left
    out has drawn one warning on the console, and nothing else is recorded. *)
Theorem inventory_lists_the_walk (args : IFtpDeployArguments) (files : list Stats.t)
    (localFiles : IFileList) (w w1 : World) (t1 : list Event) :
  readdir_async (λ stat, includeExcludeFilter stat args) = Fulfilled files →
  getLocalFiles args w = (Fulfilled localFiles, w1, t1) →
  name <$> data localFiles = Stats.path <$> filter (λ stat, listed stat = true) files
  ∧ Forall (recorded files) (data localFiles)
  ∧ w1 = w
  ∧ t1 = (λ _, ConsoleWarn "Currently unable to handle symbolic links")
         <$> filter (λ stat, warned stat = true) files.
Proof.
  intros Hwalk. unfold getLocalFiles, mbind, Run_bind, bind, await, now, ret.
  rewrite Hwalk.
  destruct (collect files [] w) as [[[out|e|] w2] t2] eqn:Hcollect; simpl; [|done..].
  intros [= <- <- <-].
  apply collect_run in Hcollect as (new & -> & Hnames & Hall & -> & ->).
  simpl. by rewrite app_nil_r.
Qed.

Lemma collect_stuck (files : list Stats.t) (records : list FileRecord) (stat : Stats.t)
    (w : World) :
  stat ∈ files →
  Stats.isDirectory stat = false →
  Stats.isFile stat = true →
  (∀ h, fileHash (Stats.path stat) "sha256" ≠ Fulfilled h) →
  ∀ out, result (collect files records w) ≠ Fulfilled out.
Proof.
  intros Hin Hdir Hfile Hhash. revert records.
  induction files as [|stat' files IH]; intros records out; [by apply elem_of_nil in Hin|].
  simpl. apply elem_of_cons in Hin as [<-|Hin].
  - rewrite Hdir, Hfile. unfold mbind, Run_bind, bind, await, result.
    destruct (fileHash (Stats.path stat) "sha256") as [h|e|] eqn:Hh; simpl; [|done..].
    by destruct (Hhash h).
  - specialize (IH Hin).
    destruct (Stats.isDirectory stat'); [apply IH|].
    destruct (Stats.isFile stat').
    { unfold mbind, Run_bind, bind, await, result.
      destruct (fileHash (Stats.path stat') "sha256") as [h|e|]; simpl; [|done..].
      specialize (IH (records ++ [{| type := type_file; name := Stats.path stat';
                                     size := Some (Stats.size stat'); hash := Some h |}]) out).
      unfold result in IH. by destruct (collect files _ w) as [[r w2] t2]. }
    destruct (Stats.isSymbolicLink stat'); [|apply IH].
    unfold mbind, Run_bind, bind, console_warn, result. simpl.
    specialize (IH records out). unfold result in IH.
    by destruct (collect files records w) as [[r w2] t2].
Qed.

(** X10: when the walk holds a regular file whose hash is not fulfilled (its
    stream fails, or [fs.createReadStream] throws), [deploy] is not
    fulfilled and makes no call at all: the local state file is not written
    and the server is not contacted. *)
Theorem unhashed_file_stops_deploy (args : IFtpDeployArguments) (files : list Stats.t)
    (stat : Stats.t) (w : World) :
  readdir_async (λ stat, includeExcludeFilter stat args) = Fulfilled files →
  stat ∈ files →
  Stats.isDirectory stat = false →
  Stats.isFile stat = true →
  (∀ h, fileHash (Stats.path stat) "sha256" ≠ Fulfilled h) →
  (∀ done, result (deploy args w) ≠ Fulfilled done)
  ∧ calls_of (trace (deploy args w)) = [].
Proof.
  intros Hwalk Hin Hdir Hfile Hhash.
  assert (Hlocal : ∀ localFiles, result (getLocalFiles args w) ≠ Fulfilled localFiles).
  { intros localFiles. unfold getLocalFiles, mbind, Run_bind, bind, await, now, ret, result.
    rewrite Hwalk.
    pose proof (collect_stuck files [] stat w Hin Hdir Hfile Hhash) as Hstuck.
    unfold result in Hstuck.
    destruct (collect files [] w) as [[[out|e|] w2] t2]; simpl; [|done..].
    by destruct (Hstuck out). }
  pose proof (getLocalFiles_local args w) as Hnone.
  unfold deploy, mbind, Run_bind, bind, log, result, trace in *. simpl.
  destruct (getLocalFiles args w) as [[[localFiles|e|] w1] t1]; simpl in *.
  - by destruct (Hlocal localFiles).
  - split; [done|]. by apply no_calls.
  - split; [done|]. by apply no_calls.
Qed.

(** X11: what fails before the connection is not caught: when the inventory
    is rejected, [deploy] is rejected with the same value and has made no
    call; when [fs.writeFileSync] throws, [deploy] is rejected with what it
    threw and the server is never contacted. *)
Theorem early_failures_reach_the_caller (args : IFtpDeployArguments) (w : World)
    (e : Thrown) :
  (result (getLocalFiles args w) = Rejected e →
   result (deploy args w) = Rejected e ∧ calls_of (trace (deploy args w)) = [])
  ∧ (∀ localFiles w1 w2 t1,
       getLocalFiles args w = (Fulfilled localFiles, w1, t1) →
       perform w1 (writeFileSync ("./" +:+ state_name args) (JSON_stringify localFiles))
       = (w2, Fail e) →
       result (deploy args w) = Rejected e
       ∧ calls_of (trace (deploy args w))
         = [writeFileSync ("./" +:+ state_name args) (JSON_stringify localFiles)]).
Proof.
  pose proof (getLocalFiles_local args w) as Hnone.
  split.
  - intros Hrejected.
    unfold deploy, mbind, Run_bind, bind, log, result, trace in *. simpl.
    destruct (getLocalFiles args w) as [[r w1] t1]; simpl in *. subst r. simpl.
    split; [done|]. by apply no_calls.
  - intros localFiles w1 w2 t1 Hlocal Hwrite.
    unfold deploy, mbind, Run_bind, bind, log, result, trace in *. simpl.
    rewrite Hlocal in *. simpl in *. unfold call. rewrite Hwrite. simpl.
    split; [done|]. rewrite calls_of_app. simpl. by rewrite (no_calls t1).
Qed.

End inventory.

Lemma inventory_lists_the_walk_witness :
  name <$> [Demo.folderRecord "docs";
            {| type := type_file; name := "a.txt"; size := Some 10%Z;
               hash := Some "0123456789" |}]
  = Stats.path <$> filter (λ stat, listed stat = true) Demo.tree
  ∧ Forall (recorded (H:=Demo.platform) Demo.tree)
      [Demo.folderRecord "docs";
       {| type := type_file; name := "a.txt"; size := Some 10%Z;
          hash := Some "0123456789" |}]
  ∧ ([] : list Reply) = []
  ∧ [] = (λ _, ConsoleWarn "Currently unable to handle symbolic links")
         <$> filter (λ stat, warned stat = true) Demo.tree.
Proof.
  apply (inventory_lists_the_walk (H:=Demo.platform) Demo.args Demo.tree
           {| description := "DO NOT DELETE THIS FILE"; version := "1.0.0";
              generatedTime := 0;
              data := [Demo.folderRecord "docs";
                       {| type := type_file; name := "a.txt"; size := Some 10%Z;
                          hash := Some "0123456789" |}] |}
           [] [] []); reflexivity.
Defined.

Lemma unhashed_file_stops_deploy_witness :
  (∀ done, result (deploy (H:=Demo.lost) Demo.args []) ≠ Fulfilled done)
  ∧ calls_of (trace (deploy (H:=Demo.lost) Demo.args [])) = [].
Proof.
  apply (unhashed_file_stops_deploy (H:=Demo.lost) Demo.args Demo.lostTree
           {| Stats.path := "missing.txt"; Stats.isDirectory := false;
              Stats.isFile := true; Stats.isSymbolicLink := false; Stats.size := 3 |} []).
  - reflexivity.
  - vm_compute. repeat constructor.
  - reflexivity.
  - reflexivity.
  - intros h. vm_compute. discriminate.
Defined.

Lemma early_failures_reach_the_caller_witness :
  result (deploy (H:=Demo.platform) Demo.args [Fail (JsError "EACCES")])
  = Rejected (JsError "EACCES")
  ∧ calls_of (trace (deploy (H:=Demo.platform) Demo.args [Fail (JsError "EACCES")]))
    = [writeFileSync "./.ftp-deploy-sync-state.json" "{}"].
Proof.
  apply (proj2 (early_failures_reach_the_caller (H:=Demo.platform) Demo.args
                  [Fail (JsError "EACCES")] (JsError "EACCES"))
           Demo.inventory [Fail (JsError "EACCES")] [] []); reflexivity.
Defined.

(** ** The previous inventory *)

Section previous.
Context `{Platform}.

(** X12: [downloadFileList] makes one call, the download of the path it is
    given; it is fulfilled only with what [JSON.parse] makes of the bytes
    received, and what it is rejected with never carries an FTP code, so that
    a caller cannot tell a missing document from another failure. *)
Theorem downloadFileList_outcomes (path : string) (w : World) :
  calls_of (trace (downloadFileList path w)) = [downloadTo path]
  ∧ (∀ e, result (downloadFileList path w) = Rejected e → code e = None)
  ∧ (∀ parsed, result (downloadFileList path w) = Fulfilled parsed →
       ∃ w1 body, perform w (downloadTo path) = (w1, Ok body)
                  ∧ JSON_parse body = Some parsed).
Proof.
  unfold downloadFileList, try_catch, mbind, Run_bind, bind, request, throw, ret,
    result, trace.
  destruct (perform w (downloadTo path)) as [w1 [body|reason]]; simpl.
  - destruct (JSON_parse body) as [parsed|] eqn:Hparse; simpl;
      (split; [done|split]); intros ? [=]; subst; try done; by eexists _, _.
  - split; [done|]. split; intros ? [=]; by subst.
Qed.

(** X13: fetching the previous inventory never fails the run: lines 314-341
    are always fulfilled. When the flag is set and the wipe itself fails,
    the failure is dropped without a line about it, and the run goes on as a
    first publish with nothing wiped. *)
Theorem fetch_is_always_fulfilled (args : IFtpDeployArguments) (w : World) :
  (∃ serverFiles, result (fetchServerFiles args w) = Fulfilled serverFiles)
  ∧ (∀ w1 e,
       dangerous_clean_slate args = true →
       perform w clearWorkingDir = (w1, Fail e) →
       fetchServerFiles args w
       = (Fulfilled (nothing (getTime w1)), w1,
          [Logged all MsgRule; Logged all MsgCleanSlate; Called clearWorkingDir;
           Logged all MsgRule; Logged all (MsgNoFileExists (state_name args));
           Logged all MsgFirstPublish; Logged all MsgNotFirstPublish])).
Proof.
  rewrite fetchServerFiles_run. split.
  - repeat case_match; by eexists.
  - intros w1 e -> ->. done.
Qed.

(** X17: when the diff tool throws, the session logs what it threw and ends
    there: no phase is run, nothing is uploaded or deleted, and the bytes
    counted stay at zero. *)
Theorem diff_failure_runs_no_phase (args : IFtpDeployArguments)
    (localFiles serverFiles : IFileList) (w w1 : World) (t1 : list Event)
    (thrown : Thrown) :
  fetchServerFiles args w = (Fulfilled serverFiles, w1, t1) →
  getDiffs localFiles serverFiles = inr thrown →
  result (session args localFiles w) = Fulfilled (false, no_bytes)
  ∧ world (session args localFiles w) = w1
  ∧ calls_of (trace (session args localFiles w)) = calls_of t1
  ∧ last (trace (session args localFiles w)) = Some (Logged warn (MsgThrown thrown)).
Proof.
  intros Hfetch Hdiffs.
  unfold session, sessionCatch, try_catch, mbind, Run_bind, bind, consult, log, throw, ret,
    result, world, trace.
  rewrite Hfetch. simpl. rewrite Hdiffs. simpl.
  case_decide; simpl; rewrite !calls_of_app; simpl; rewrite !app_nil_r;
    (repeat split; [done..|]).
  - by rewrite last_app.
  - by rewrite last_app.
Qed.

End previous.

Lemma fetch_is_always_fulfilled_witness :
  fetchServerFiles (H:=Demo.platform) Demo.cleanSlate [Fail (FTPError 550 "Permission denied")]
  = (Fulfilled Demo.noInventory, [],
     [Logged all MsgRule; Logged all MsgCleanSlate; Called clearWorkingDir;
      Logged all MsgRule; Logged all (MsgNoFileExists ".ftp-deploy-sync-state.json");
      Logged all MsgFirstPublish; Logged all MsgNotFirstPublish]).
Proof.
  apply (proj2 (fetch_is_always_fulfilled (H:=Demo.platform) Demo.cleanSlate
                  [Fail (FTPError 550 "Permission denied")])
           [] (FTPError 550 "Permission denied")); reflexivity.
Defined.

Lemma diff_failure_runs_no_phase_witness :
  result (session (H:=Demo.failingDiff) Demo.args Demo.inventory []) = Fulfilled (false, no_bytes)
  ∧ world (session (H:=Demo.failingDiff) Demo.args Demo.inventory []) = []
  ∧ calls_of (trace (session (H:=Demo.failingDiff) Demo.args Demo.inventory []))
    = calls_of [Called (downloadTo ".ftp-deploy-sync-state.json");
                Logged all MsgRule;
                Logged all (MsgNoFileExists ".ftp-deploy-sync-state.json");
                Logged all MsgFirstPublish; Logged all MsgNotFirstPublish]
  ∧ last (trace (session (H:=Demo.failingDiff) Demo.args Demo.inventory []))
    = Some (Logged warn (MsgThrown (JsError "TypeError"))).
Proof.
  apply (diff_failure_runs_no_phase (H:=Demo.failingDiff) Demo.args Demo.inventory
           Demo.noInventory [] []); reflexivity.
Defined.

(** ** Whole runs *)

Ltac in_session :=
  emit; try apply upDir_emits;
  first [ by intros ? [=] | by intros ? [= <-] ].

Section whole_runs.
Context `{Platform}.

Lemma emits_request (c : Call) (P : Event → Prop) :
  P (Called c) → emits_only (request c) P.
Proof.
  intros HP w ev. unfold request, trace.
  destruct (perform w c) as [w' [body|e]]; simpl;
    intros Hev; apply list_elem_of_singleton in Hev; by subst.
Qed.

Lemma uploadFile_of_session (filePath : string) : emits_only (uploadFile filePath) of_session.
Proof.
  unfold uploadFile. cbv zeta. destruct (folders _) as [fs|], (file _) as [f|]; in_session.
Qed.

Lemma createFolder_of_session (folderPath : string) :
  emits_only (createFolder folderPath) of_session.
Proof. unfold createFolder. cbv zeta. destruct (folders _) as [fs|]; in_session. Qed.

Lemma removeFile_of_session (filePath : string) : emits_only (removeFile filePath) of_session.
Proof.
  unfold removeFile, removeFile_try. cbv zeta.
  destruct (folders _) as [fs|], (file _) as [f|]; in_session.
Qed.

Lemma removeFolder_of_session (folderPath : string) :
  emits_only (removeFolder folderPath) of_session.
Proof.
  unfold removeFolder, removeFolder_try. cbv zeta. destruct (folders _) as [fs|]; in_session.
Qed.

Lemma syncChanges_of_session (args : IFtpDeployArguments) (diffs : DiffResult) :
  emits_only (syncChanges args diffs) of_session.
Proof.
  unfold syncChanges. apply emits_bind; [|intros _; unfold saveState; in_session].
  unfold phases1to5.
  repeat (apply emits_bind; [|intros _]); apply emits_for; intros item _;
    auto using uploadFile_of_session, createFolder_of_session, removeFile_of_session,
      removeFolder_of_session.
Qed.

Lemma connected_of_session (args : IFtpDeployArguments) (localFiles : IFileList) :
  emits_only (connected args localFiles) of_session.
Proof.
  unfold connected. apply emits_try_catch; [|intros err; in_session].
  apply emits_bind; [apply emits_call; by intros ? [= <-]|intros _].
  unfold session. apply emits_try_catch; [|intros err; unfold sessionCatch; in_session].
  apply emits_bind.
  { unfold fetchServerFiles. apply emits_try_catch.
    - apply emits_bind; [destruct (dangerous_clean_slate args); in_session|intros _].
      apply emits_bind; [|intros serverFiles; in_session].
      unfold downloadFileList. apply emits_bind.
      + apply emits_try_catch; [apply emits_request; by intros ? [= <-]|].
        intros reason. apply emits_throw.
      + intros body. destruct (JSON_parse body); [apply emits_ret|apply emits_throw].
    - intros e. repeat (apply emits_bind; [apply emits_log; by intros ? [=]|intros _]).
      apply emits_bind; [apply emits_now|intros generated; apply emits_ret]. }
  intros serverFiles. apply emits_bind.
  { intros w ev Hev. apply list_elem_of_singleton in Hev as ->. by intros ? [=]. }
  intros _. destruct (getDiffs localFiles serverFiles) as [diffs|thrown];
    [|apply emits_throw].
  apply emits_try_catch; [|intros err; unfold sessionCatch; in_session].
  apply emits_bind; [|intros returned; apply emits_ret].
  unfold uploadBlock. apply emits_try_catch; [|intros e; in_session].
  cbv zeta. repeat (apply emits_bind; [apply emits_log; by intros ? [=]|intros _]).
  apply emits_bind; [apply syncChanges_of_session|intros _; apply emits_ret].
Qed.

Lemma connected_run (args : IFtpDeployArguments) (localFiles : IFileList)
    (outcome : bool * Bytes) (w w1 w2 : World) (body : string) (t2 : list Event) :
  perform w (access (server args) (username args) (password args)) = (w1, Ok body) →
  session args localFiles w1 = (Fulfilled outcome, w2, t2) →
  connected args localFiles w
  = (Fulfilled outcome, w2,
     Called (access (server args) (username args) (password args)) :: t2).
Proof.
  intros Haccess Hsession.
  unfold connected, try_catch, mbind, Run_bind, bind, call. by rewrite Haccess, Hsession.
Qed.

(** [deploy] when the [return] of line 390 is taken. *)
Lemma deploy_returned (args : IFtpDeployArguments) (localFiles : IFileList)
    (totalBytesUploaded : Bytes) (w w1 w2 w3 : World) (body : string) (t1 t3 : list Event) :
  getLocalFiles args w = (Fulfilled localFiles, w1, t1) →
  perform w1 (writeFileSync ("./" +:+ state_name args) (JSON_stringify localFiles))
  = (w2, Ok body) →
  connected args localFiles w2 = (Fulfilled (true, totalBytesUploaded), w3, t3) →
  deploy args w
  = (Fulfilled tt, w3,
     [Logged all MsgRule; Logged all MsgWelcome; Logged all MsgRule;
      Logged all MsgSupport; Logged all MsgStar]
     ++ t1
     ++ Called (writeFileSync ("./" +:+ state_name args) (JSON_stringify localFiles))
     :: t3).
Proof.
  intros Hlocal Hwrite Hconnected.
  unfold deploy, mbind, Run_bind, bind, log. simpl. rewrite Hlocal.
  unfold call at 1. rewrite Hwrite. simpl. rewrite Hconnected. simpl.
  by rewrite app_nil_r.
Qed.

(** [deploy] when the connected part ends without the [return] and the
    connection closes. *)
Lemma deploy_closed (args : IFtpDeployArguments) (localFiles : IFileList)
    (totalBytesUploaded : Bytes) (w w1 w2 w3 w4 w5 : World) (body body' speed : string)
    (t1 t3 : list Event) :
  getLocalFiles args w = (Fulfilled localFiles, w1, t1) →
  perform w1 (writeFileSync ("./" +:+ state_name args) (JSON_stringify localFiles))
  = (w2, Ok body) →
  connected args localFiles w2 = (Fulfilled (false, totalBytesUploaded), w3, t3) →
  perform w3 close = (w4, Ok body') →
  perform w4 (uploadSpeed totalBytesUploaded) = (w5, Ok speed) →
  deploy args w
  = (Fulfilled tt, w5,
     [Logged all MsgRule; Logged all MsgWelcome; Logged all MsgRule;
      Logged all MsgSupport; Logged all MsgStar]
     ++ t1
     ++ Called (writeFileSync ("./" +:+ state_name args) (JSON_stringify localFiles))
     :: t3
     ++ [Called close; Called (uploadSpeed totalBytesUploaded);
         Logged all MsgRule; Logged all MsgTimeHashing; Logged all MsgTimeConnecting;
         Logged all (MsgTimeDeploying speed); Logged all MsgRule;
         Logged all MsgTotalTime; Logged all MsgRule]).
Proof.
  intros Hlocal Hwrite Hconnected Hclose Hspeed.
  unfold deploy, mbind, Run_bind, bind, log. simpl. rewrite Hlocal.
  unfold call, request. rewrite Hwrite. simpl. rewrite Hconnected. simpl.
  rewrite Hclose. simpl. by rewrite Hspeed.
Qed.

(** X14: when the server refuses the connection, the run has changed
    nothing on it: after the write of the local state file and the attempt
    to connect, [deploy] only closes the client and reports a speed over
    zero bytes. *)
Theorem refused_connection_changes_nothing (args : IFtpDeployArguments)
    (localFiles : IFileList) (w w1 w2 w3 : World) (body : string) (t1 : list Event)
    (e : Thrown) :
  getLocalFiles args w = (Fulfilled localFiles, w1, t1) →
  perform w1 (writeFileSync ("./" +:+ state_name args) (JSON_stringify localFiles))
  = (w2, Ok body) →
  perform w2 (access (server args) (username args) (password args)) = (w3, Fail e) →
  ∃ closing,
    calls_of (trace (deploy args w))
    = writeFileSync ("./" +:+ state_name args) (JSON_stringify localFiles)
      :: access (server args) (username args) (password args) :: closing
    ∧ closing `prefix_of` [close; uploadSpeed no_bytes].
Proof.
  intros Hlocal Hwrite Haccess.
  assert (Hconnected : connected args localFiles w2
                       = (Fulfilled (false, no_bytes), w3,
                          [Called (access (server args) (username args) (password args));
                           Logged warn (MsgThrown e)])).
  { unfold connected, try_catch, mbind, Run_bind, bind, call, log, ret.
    by rewrite Haccess. }
  destruct (deploy_calls args localFiles false no_bytes w w1 w2 w3 body t1 _
              Hlocal Hwrite Hconnected) as (closing & Hcalls & Hclosing & _).
  exists closing. split; [|done]. rewrite Hcalls.
  pose proof (getLocalFiles_local args w) as Hnone. unfold trace in Hnone.
  rewrite Hlocal in Hnone. by rewrite (no_calls t1).
Qed.

(** X15: when a phase fails with the code 553, [deploy] is fulfilled right
    after the line about the missing access: the client is never closed and
    no speed is reported. *)
Theorem refusal_553_leaves_client_open (args : IFtpDeployArguments)
    (localFiles serverFiles : IFileList) (diffs : DiffResult)
    (w w1 w2 w3 w4 : World) (body body' : string) (t1 t4 : list Event) (e : Thrown) :
  getLocalFiles args w = (Fulfilled localFiles, w1, t1) →
  perform w1 (writeFileSync ("./" +:+ state_name args) (JSON_stringify localFiles))
  = (w2, Ok body) →
  perform w2 (access (server args) (username args) (password args)) = (w3, Ok body') →
  fetchServerFiles args w3 = (Fulfilled serverFiles, w4, t4) →
  getDiffs localFiles serverFiles = inl diffs →
  result (syncChanges args diffs w4) = Rejected e →
  code e = Some 553%Z →
  result (deploy args w) = Fulfilled tt
  ∧ (close ∉ calls_of (trace (deploy args w)))
  ∧ (∀ totalBytesUploaded, uploadSpeed totalBytesUploaded ∉ calls_of (trace (deploy args w)))
  ∧ last (trace (deploy args w)) = Some (Logged warn MsgError553).
Proof.
  intros Hlocal Hwrite Haccess Hfetch Hdiffs Hfailed Hcode.
  pose proof (uploadBlock_run args diffs w4) as Hblock. cbv zeta in Hblock.
  destruct (syncChanges args diffs w4) as [[r w5] t5].
  unfold result in Hfailed. simpl in Hfailed. subst r. rewrite decide_True in Hblock by done.
  pose proof (session_run _ _ _ _ _ _ _ _ _ _ Hfetch Hdiffs Hblock) as Hsession.
  pose proof (connected_run _ _ _ _ _ _ _ _ Haccess Hsession) as Hconnected.
  pose proof (connected_of_session args localFiles w2) as Hin. unfold trace in Hin.
  rewrite Hconnected in Hin. simpl in Hin.
  pose proof (getLocalFiles_local args w) as Hnone. unfold trace in Hnone.
  rewrite Hlocal in Hnone. simpl in Hnone.
  rewrite (deploy_returned _ _ _ _ _ _ _ _ _ _ Hlocal Hwrite Hconnected).
  unfold result, trace. simpl.
  assert (Hcalls : ∀ c, session_call c = false →
            c ∈ calls_of (t1 ++ Called (writeFileSync ("./" +:+ state_name args)
                                          (JSON_stringify localFiles))
                          :: Called (access (server args) (username args) (password args))
                          :: t4 ++ GetDiffs localFiles serverFiles
                          :: [Logged all MsgRule;
                              Logged all (MsgMakingChanges
                                            (length (delete diffs) + length (upload diffs)
                                             + length (replace diffs)));
                              Logged all (MsgSizes (sizeUpload diffs) (sizeDelete diffs)
                                            (sizeReplace diffs));
                              Logged all MsgRule] ++ t5 ++ [Logged warn MsgError553]) →
            ∃ localPath content, c = writeFileSync localPath content).
  { intros c Hc Hcin. rewrite calls_of_app, (no_calls t1), app_nil_l in Hcin by done.
    apply elem_of_calls_of in Hcin.
    apply elem_of_cons in Hcin as [[= ->]|Hcin]; [by eexists _, _|].
    apply elem_of_cons in Hcin as [[=]|Hcin]; [by subst|].
    assert (session_call c = true); [|congruence].
    apply (Hin (Called c)); [by right|done]. }
  split; [done|]. split; [|split].
  - intros Hclose. by destruct (Hcalls close eq_refl Hclose) as (? & ? & [=]).
  - intros total Hspeed. by destruct (Hcalls (uploadSpeed total) eq_refl Hspeed) as (? & ? & [=]).
  - rewrite !app_comm_cons, !app_assoc. apply last_snoc.
Qed.

(** X16: a run in which nothing fails is fulfilled after these calls, in
    this order: the write of the local state file, the connection, the calls
    that fetch the previous inventory, the calls of the five phases, the
    upload of the state document, the closing of the client and the report
    of the speed over the total of line 346: the sum JavaScript makes of
    [diffs.sizeUpload] and [diffs.sizeReplace], whatever the floating-point
    addition yields for them. *)
Theorem successful_run (args : IFtpDeployArguments)
    (localFiles serverFiles : IFileList) (diffs : DiffResult)
    (w w1 w2 w3 w4 w5 w6 w7 : World) (body body' body'' speed : string)
    (t1 t4 t5 : list Event) :
  getLocalFiles args w = (Fulfilled localFiles, w1, t1) →
  perform w1 (writeFileSync ("./" +:+ state_name args) (JSON_stringify localFiles))
  = (w2, Ok body) →
  perform w2 (access (server args) (username args) (password args)) = (w3, Ok body') →
  fetchServerFiles args w3 = (Fulfilled serverFiles, w4, t4) →
  getDiffs localFiles serverFiles = inl diffs →
  syncChanges args diffs w4 = (Fulfilled tt, w5, t5) →
  perform w5 close = (w6, Ok body'') →
  perform w6 (uploadSpeed (bytes_sum (sizeUpload diffs) (sizeReplace diffs))) = (w7, Ok speed) →
  result (deploy args w) = Fulfilled tt
  ∧ world (deploy args w) = w7
  ∧ calls_of (trace (deploy args w))
    = writeFileSync ("./" +:+ state_name args) (JSON_stringify localFiles)
      :: access (server args) (username args) (password args)
      :: (calls_of t4
          ++ phases1to5_calls args diffs
          ++ [uploadFrom (state_name args) (state_name args);
              close; uploadSpeed (bytes_sum (sizeUpload diffs) (sizeReplace diffs))]).
Proof.
  intros Hlocal Hwrite Haccess Hfetch Hdiffs Hsync Hclose Hspeed.
  pose proof (uploadBlock_run args diffs w4) as Hblock. cbv zeta in Hblock.
  rewrite Hsync in Hblock.
  pose proof (session_run _ _ _ _ _ _ _ _ _ _ Hfetch Hdiffs Hblock) as Hsession.
  pose proof (connected_run _ _ _ _ _ _ _ _ Haccess Hsession) as Hconnected.
  rewrite (deploy_closed _ _ _ _ _ _ _ _ _ _ _ _ _ _ Hlocal Hwrite Hconnected Hclose Hspeed).
  unfold result, world, trace. simpl. split; [done|]. split; [done|].
  pose proof (getLocalFiles_local args w) as Hnone. unfold trace in Hnone.
  rewrite Hlocal in Hnone. simpl in Hnone.
  pose proof (issues_all _ _ (syncChanges_issues args diffs) w4 tt) as Hplan.
  rewrite Hsync in Hplan. unfold result, trace in Hplan. simpl in Hplan.
  rewrite calls_of_app, (no_calls t1) by done. simpl.
  rewrite calls_of_app. simpl. rewrite calls_of_app. simpl.
  rewrite (Hplan eq_refl). by rewrite <-!app_assoc.
Qed.

End whole_runs.

Lemma refused_connection_changes_nothing_witness :
  ∃ closing,
    calls_of (trace (deploy (H:=Demo.platform) Demo.args Demo.refusedLogin))
    = writeFileSync "./.ftp-deploy-sync-state.json" "{}"
      :: access "ftp.example.com" "user" "secret" :: closing
    ∧ closing `prefix_of` [close; uploadSpeed no_bytes].
Proof.
  apply (refused_connection_changes_nothing (H:=Demo.platform) Demo.args Demo.inventory
           Demo.refusedLogin Demo.refusedLogin [Fail (FTPError 530 "Login incorrect")] []
           "" [] (FTPError 530 "Login incorrect")); reflexivity.
Defined.

Lemma refusal_553_leaves_client_open_witness :
  result (deploy (H:=Demo.platform) Demo.args Demo.refusedUpload) = Fulfilled tt
  ∧ (close ∉ calls_of (trace (deploy (H:=Demo.platform) Demo.args Demo.refusedUpload)))
  ∧ (∀ totalBytesUploaded,
       uploadSpeed totalBytesUploaded
       ∉ calls_of (trace (deploy (H:=Demo.platform) Demo.args Demo.refusedUpload)))
  ∧ last (trace (deploy (H:=Demo.platform) Demo.args Demo.refusedUpload))
    = Some (Logged warn MsgError553).
Proof.
  eapply (refusal_553_leaves_client_open (H:=Demo.platform) Demo.args Demo.inventory
            Demo.noInventory Demo.firstUpload Demo.refusedUpload);
    reflexivity.
Defined.

Lemma successful_run_witness :
  result (deploy (H:=Demo.platform) Demo.args []) = Fulfilled tt
  ∧ world (deploy (H:=Demo.platform) Demo.args []) = []
  ∧ calls_of (trace (deploy (H:=Demo.platform) Demo.args []))
    = writeFileSync "./.ftp-deploy-sync-state.json" "{}"
      :: access "ftp.example.com" "user" "secret"
      :: (calls_of [Called (downloadTo ".ftp-deploy-sync-state.json");
                    Logged all MsgRule;
                    Logged all (MsgNoFileExists ".ftp-deploy-sync-state.json");
                    Logged all MsgFirstPublish; Logged all MsgNotFirstPublish]
          ++ phases1to5_calls Demo.args Demo.firstUpload
          ++ [uploadFrom ".ftp-deploy-sync-state.json" ".ftp-deploy-sync-state.json";
              close; uploadSpeed (bytes_sum 0 0)]).
Proof.
  eapply (successful_run (H:=Demo.platform) Demo.args Demo.inventory Demo.noInventory
            Demo.firstUpload []); reflexivity.
Defined.

(** ** Edge cases of the operations *)

Section edges.
Context `{Platform}.

(** X18: removing a file that the server reports as absent is a success:
    when the folders of the file can be entered and left and only
    [client.remove] fails, with the code [FileNotFoundOrNoAccess],
    [removeFile] is fulfilled, has made all its calls and has logged that
    the file does not exist; the same holds for [removeFolder] and
    [client.removeDir]. *)
Theorem absent_entries_are_removed_quietly (w w1 w2 : World) (e : Thrown) :
  code e = Some FileNotFoundOrNoAccess →
  (∀ filePath f,
     file (getFileBreadcrumbs filePath) = Some f →
     match folders (getFileBreadcrumbs filePath) with
     | Some names => ∃ body, perform w (ensureDir (join names)) = (w1, Ok body)
     | None => w1 = w
     end →
     perform w1 (remove f) = (w2, Fail e) →
     result (upDir (length <$> folders (getFileBreadcrumbs filePath)) w2) = Fulfilled tt →
     result (removeFile filePath w) = Fulfilled tt
     ∧ calls_of (trace (removeFile filePath w)) = removeFile_calls filePath
     ∧ Logged info MsgFileDoesNotExist ∈ trace (removeFile filePath w))
  ∧ (∀ folderPath names,
       folders (getFileBreadcrumbs (folderPath +:+ "/")) = Some names →
       perform w (removeDir (join names +:+ "/")) = (w2, Fail e) →
       result (upDir (Some (length names)) w2) = Fulfilled tt →
       result (removeFolder folderPath w) = Fulfilled tt
       ∧ calls_of (trace (removeFolder folderPath w)) = removeFolder_calls folderPath
       ∧ Logged debug MsgFolderDoesNotExist ∈ trace (removeFolder folderPath w)).
Proof.
  intros Hcode. split.
  - intros filePath f Hfile Hcd Hremove Hup.
    assert (Hrun : ∃ w3 before after,
              removeFile filePath w
              = (Fulfilled tt, w3, before ++ Logged info MsgFileDoesNotExist :: after)).
    { unfold removeFile, mbind, Run_bind, bind, log, call. cbv zeta. rewrite Hfile.
      destruct (upDir (length <$> folders (getFileBreadcrumbs filePath)) w2)
        as [[r w3] t3] eqn:Hleave.
      unfold result in Hup. simpl in Hup. subst r.
      destruct (folders (getFileBreadcrumbs filePath)) as [names|]; simpl in *.
      - destruct Hcd as [body Hcd]. rewrite Hcd. simpl.
        rewrite removeFile_try_run, Hremove, decide_True by done. rewrite Hleave.
        exists w3, [Logged all (MsgRemoving filePath);
                    Logged debug (MsgChangingDir (join names));
                    Called (ensureDir (join names)); Logged debug MsgDirChanged;
                    Logged debug (MsgRemovingFile f); Called (remove f)],
               (t3 ++ [Logged info MsgCompleted]). done.
      - subst w1. rewrite removeFile_try_run, Hremove, decide_True by done. simpl.
        exists w2, [Logged all (MsgRemoving filePath); Logged debug MsgNoNeedToChangeDir;
                    Logged debug (MsgRemovingFile f); Called (remove f)],
               [Logged info MsgCompleted]. done. }
    destruct Hrun as (w3 & before & after & Hrun).
    assert (Hdone : result (removeFile filePath w) = Fulfilled tt) by by rewrite Hrun.
    split; [done|]. split.
    + by apply (issues_all _ _ (removeFile_issues filePath) w tt).
    + rewrite Hrun. unfold trace. simpl. apply elem_of_app. right. apply list_elem_of_here.
  - intros folderPath names Hfolders Hremove Hup.
    assert (Hrun : ∃ w3 before after,
              removeFolder folderPath w
              = (Fulfilled tt, w3, before ++ Logged debug MsgFolderDoesNotExist :: after)).
    { unfold removeFolder, mbind, Run_bind, bind, log. cbv zeta. rewrite Hfolders. simpl.
      rewrite removeFolder_try_run, Hremove, decide_True by done.
      destruct (upDir (Some (length names)) w2) as [[r w3] t3] eqn:Hleave.
      unfold result in Hup. simpl in Hup. subst r. simpl in Hleave. rewrite Hleave.
      exists w3, [Logged all (MsgRemovingFolder (folderPath +:+ "/"));
                  Logged debug (MsgRemovingFolderDir (join names +:+ "/"));
                  Called (removeDir (join names +:+ "/"))],
             (t3 ++ [Logged info MsgCompleted]). done. }
    destruct Hrun as (w3 & before & after & Hrun).
    assert (Hdone : result (removeFolder folderPath w) = Fulfilled tt) by by rewrite Hrun.
    split; [done|]. split.
    + by apply (issues_all _ _ (removeFolder_issues folderPath) w tt).
    + rewrite Hrun. unfold trace. simpl. apply elem_of_app. right. apply list_elem_of_here.
Qed.

(** X19: [uploadFile] transfers nothing for a path without a file part:
    given a path that ends with the separator it only enters the folders and
    comes back, and given the empty path it makes no call at all. *)
Theorem folder_path_uploads_nothing (folderPath : string) (w : World) :
  (∀ source remotePath,
     uploadFrom source remotePath ∉ calls_of (trace (uploadFile (folderPath +:+ "/") w)))
  ∧ calls_of (trace (uploadFile EmptyString w)) = [].
Proof.
  split.
  - intros source remotePath Hin.
    pose proof (issues_prefix _ _ (uploadFile_issues (folderPath +:+ "/")) w) as [rest Hrest].
    assert (Hplan : uploadFrom source remotePath ∈ uploadFile_calls (folderPath +:+ "/")).
    { rewrite Hrest. apply elem_of_app. by left. }
    unfold uploadFile_calls, cd_calls in Hplan. cbv zeta in Hplan.
    rewrite (getFileBreadcrumbs_pieces _ _ _ (split_slash_trailing folderPath)) in Hplan.
    simpl in Hplan.
    destruct (filter _ (split_slash folderPath)) as [|piece pieces]; simpl in Hplan.
    + by apply elem_of_nil in Hplan.
    + apply elem_of_cons in Hplan as [[=]|Hplan].
      apply elem_of_cons in Hplan as [[=]|Hplan].
      by apply elem_of_replicate in Hplan as [[=] _].
  - pose proof (issues_prefix _ _ (uploadFile_issues EmptyString) w) as Hprefix.
    by apply prefix_nil_inv in Hprefix.
Qed.

(** X20: an edit script with nothing to upload, replace or delete still
    uploads the state document: that upload is the one call of lines
    357-385. *)
Theorem empty_script_saves_state (args : IFtpDeployArguments) (diffs : DiffResult)
    (w : World) :
  upload diffs = [] → replace diffs = [] → delete diffs = [] →
  calls_of (trace (syncChanges args diffs w))
  = [uploadFrom (state_name args) (state_name args)]
  ∧ world (syncChanges args diffs w)
    = (perform w (uploadFrom (state_name args) (state_name args))).1.
Proof.
  intros Hupload Hreplace Hdelete.
  unfold syncChanges, phases1to5, createNewFolders, uploadNewFiles, replaceFiles,
    deleteOldFiles, deleteOldFolders, saveState, mbind, Run_bind, bind, call, log, ret,
    world, trace.
  rewrite Hupload, Hreplace, Hdelete. simpl.
  by destruct (perform w (uploadFrom (state_name args) (state_name args))) as [w1 [body|e]].
Qed.

End edges.

Lemma absent_entries_are_removed_quietly_witness :
  result (removeFile (H:=Demo.platform) "old/c.txt"
            [Ok ""; Fail (FTPError 550 "No such file")]) = Fulfilled tt
  ∧ calls_of (trace (removeFile (H:=Demo.platform) "old/c.txt"
                       [Ok ""; Fail (FTPError 550 "No such file")]))
    = removeFile_calls "old/c.txt"
  ∧ Logged info MsgFileDoesNotExist
    ∈ trace (removeFile (H:=Demo.platform) "old/c.txt"
               [Ok ""; Fail (FTPError 550 "No such file")]).
Proof.
  apply (proj1 (absent_entries_are_removed_quietly (H:=Demo.platform)
                  [Ok ""; Fail (FTPError 550 "No such file")]
                  [Fail (FTPError 550 "No such file")] []
                  (FTPError 550 "No such file") eq_refl) "old/c.txt" "c.txt").
  - reflexivity.
  - exists "". reflexivity.
  - reflexivity.
  - reflexivity.
Defined.

Lemma empty_script_saves_state_witness :
  calls_of (trace (syncChanges (H:=Demo.platform) Demo.args Demo.noChanges []))
  = [uploadFrom ".ftp-deploy-sync-state.json" ".ftp-deploy-sync-state.json"]
  ∧ world (syncChanges (H:=Demo.platform) Demo.args Demo.noChanges []) = [].
Proof.
  apply (empty_script_saves_state (H:=Demo.platform) Demo.args Demo.noChanges []);
    reflexivity.
Defined.

Lemma downloadFileList_outcomes_witness :
  code (CantOpen (FTPError 550 "No such file")) = None.
Proof.
  apply (proj1 (proj2 (downloadFileList_outcomes (H:=Demo.platform)
                         ".ftp-deploy-sync-state.json"
                         [Fail (FTPError 550 "No such file")]))).
  reflexivity.
Defined.

Section placement.
Context `{Platform}.

(** X21: a file is uploaded where its path says. When the pieces of the
    path between its slashes are the folders [names] and then the name [f],
    none of them empty, a fulfilled [uploadFile] has issued exactly these
    calls: one [ensureDir] of the folders joined (none for a file at the
    root), the transfer of the local file of that path under the name [f],
    and one [cdup] per folder; folders and name, joined, are the path. *)
Theorem upload_keeps_the_path (filePath : string) (names : list string) (f : string)
    (w : World) :
  split_slash filePath = names ++ [f] →
  EmptyString ∉ names ++ [f] →
  result (uploadFile filePath w) = Fulfilled tt →
  join (names ++ [f]) = filePath
  ∧ calls_of (trace (uploadFile filePath w))
    = match names with [] => [] | _ => [ensureDir (join names)] end
      ++ uploadFrom filePath f :: replicate (length names) cdup.
Proof.
  intros Hsplit Hnone Hdone.
  rewrite (issues_all _ _ (uploadFile_issues filePath) w tt Hdone).
  unfold uploadFile_calls, cd_calls. cbv zeta.
  rewrite (getFileBreadcrumbs_pieces _ _ _ Hsplit). simpl.
  assert (Hfinal : f ≠ EmptyString).
  { intros ->. apply Hnone, elem_of_app. right. apply list_elem_of_here. }
  assert (Hkept : filter (λ piece, piece ≠ EmptyString) names = names).
  { apply filter_all. apply Forall_forall. intros piece Hin ->.
    apply Hnone, elem_of_app. by left. }
  rewrite Hkept, decide_False by done.
  split.
  - rewrite <-Hsplit. apply split_slash_sound.
  - by destruct names.
Qed.

End placement.

Lemma upload_keeps_the_path_witness :
  join (["docs"; "img"] ++ ["b.png"]) = "docs/img/b.png"
  ∧ calls_of (trace (uploadFile (H:=Demo.platform) "docs/img/b.png" []))
    = [ensureDir (join ["docs"; "img"])]
      ++ uploadFrom "docs/img/b.png" "b.png" :: replicate (length ["docs"; "img"]) cdup.
Proof.
  apply (upload_keeps_the_path (H:=Demo.platform) "docs/img/b.png"
           ["docs"; "img"] "b.png" []).
  - reflexivity.
  - vm_compute. intros Hin.
    repeat (apply elem_of_cons in Hin as [Hin|Hin]; [discriminate|]).
    by apply elem_of_nil in Hin.
  - reflexivity.
Defined.
